(** * Sales lifecycle service (package [sales]): model and properties

    The Go package keeps its sales in a [map[string]*Sale]: the values of the
    map are pointers, so the model has a heap of [Sale] objects and a map from
    identifiers to addresses.  Everything the service asks of the outside
    (the user API over HTTP, the clock, the random generator, the UUID
    generator, the iteration order of a Go map) is an event of a small free
    monad; an environment answers the events. *)

From Stdlib Require Import ZArith String Ascii List Floats DecimalString.
From stdpp Require Import gmap strings list fin_maps relations.
Import ListNotations.

Local Open Scope string_scope.
Local Open Scope Z_scope.

(** ** Values *)

(** A [time.Time] instant, as the reading of the process clock. *)
Definition Time : Type := Z.

(** A pointer [*Sale]: the index of the object in the heap. *)
Definition addr : Type := nat.

(** Go's [int] on the 64-bit targets the service runs on. *)
Definition min_int : Z := - 2 ^ 63.
Definition max_int : Z := 2 ^ 63 - 1.

Definition wrap_int (z : Z) : Z := (z + 2 ^ 63) mod 2 ^ 64 - 2 ^ 63.

(** Modelled from the spec: the declaration of [type Sale struct] is not
    among the sources; the fields are the ones the service and its tests
    read and write ([ID], [UserID], [Amount], [Status], [CreatedAt],
    [UpdatedAt], [Version]), with [Amount] a [float64], [Status] a string
    and [Version] an [int]. *)
Record Sale : Type := mkSale {
  ID : string;
  UserID : string;
  Amount : float;
  Status : string;
  CreatedAt : Time;
  UpdatedAt : Time;
  Version : Z
}.

Definition set_Status (v : string) (s : Sale) : Sale :=
  mkSale (ID s) (UserID s) (Amount s) v (CreatedAt s) (UpdatedAt s) (Version s).

Definition set_UpdatedAt (t : Time) (s : Sale) : Sale :=
  mkSale (ID s) (UserID s) (Amount s) (Status s) (CreatedAt s) t (Version s).

(** [sale.Version++] *)
Definition incr_Version (s : Sale) : Sale :=
  mkSale (ID s) (UserID s) (Amount s) (Status s) (CreatedAt s) (UpdatedAt s)
         (wrap_int (Version s + 1)).

(** ** Errors *)

(** The package's sentinel errors ([errors.New]) and the errors built with
    [fmt.Errorf]; [Wrapf prefix e] is [fmt.Errorf(prefix ++ "%w", e)].
    [NetError] is whatever [http.Get] fails with. *)
Inductive error : Type :=
| ErrNotFound
| ErrEmptyID
| ErrInvalidTransition
| ErrInvalidStatus
| NetError (msg : string)
| Errorf (msg : string)
| Wrapf (prefix : string) (inner : error).

Fixpoint Error (e : error) : string :=
  match e with
  | ErrNotFound => "sale not found"
  | ErrEmptyID => "empty sale ID"
  | ErrInvalidTransition => "invalid status transition"
  | ErrInvalidStatus => "invalid status value"
  | NetError msg => msg
  | Errorf msg => msg
  | Wrapf prefix inner => prefix ++ Error inner
  end.

(** [errors.Is(e, target)] for a sentinel [target]: follows the [%w] chain. *)
Fixpoint errors_Is (e target : error) : bool :=
  match e, target with
  | ErrNotFound, ErrNotFound => true
  | ErrEmptyID, ErrEmptyID => true
  | ErrInvalidTransition, ErrInvalidTransition => true
  | ErrInvalidStatus, ErrInvalidStatus => true
  | Wrapf _ inner, _ => errors_Is inner target
  | _, _ => false
  end.

(** ** The outside world *)

(** What [http.Get] gives back: an error, or a response with its status. *)
Inductive http_result : Type :=
| HttpFail (msg : string)
| HttpResp (StatusCode : Z).

Definition StatusOK : Z := 200.
Definition StatusNotFound : Z := 404.

(** A [uuid.UUID] is an array of 16 bytes. *)
Definition UUID : Type := list Byte.byte.

Definition hexdigit (n : N) : ascii :=
  match String.get (N.to_nat n) "0123456789abcdef" with
  | Some c => c
  | None => "0"%char
  end.

Fixpoint hex_Encode (bs : list Byte.byte) : string :=
  match bs with
  | [] => ""
  | b :: rest =>
      let n := Byte.to_N b in
      String (hexdigit (n / 16)) (String (hexdigit (n mod 16)) (hex_Encode rest))
  end.

(** [UUID.String] of github.com/google/uuid: the canonical form
    xxxxxxxx-xxxx-xxxx-xxxx-xxxxxxxxxxxx. *)
Definition UUID_String (u : UUID) : string :=
  hex_Encode (firstn 4 u) ++ "-" ++
  hex_Encode (firstn 2 (skipn 4 u)) ++ "-" ++
  hex_Encode (firstn 2 (skipn 6 u)) ++ "-" ++
  hex_Encode (firstn 2 (skipn 8 u)) ++ "-" ++
  hex_Encode (skipn 10 u).

(** The environment answers the calls that leave the package.  Every answer
    is indexed by the number of such calls made so far, so that two calls
    may get different answers. *)
Record Env : Type := mkEnv {
  http_Get : nat -> string -> http_result;
  time_Now : nat -> Time;
  rand_Int63 : nat -> Z;
  uuid_New : nat -> UUID;
  map_order : nat -> list (string * addr) -> list (string * addr)
}.

Definition with_http (h : nat -> string -> http_result) (env : Env) : Env :=
  mkEnv h (time_Now env) (rand_Int63 env) (uuid_New env) (map_order env).

(** ** State: the heap and the [LocalStorage] map *)

Record World : Type := mkWorld {
  heap : list Sale;
  m : gmap string addr;
  calls : nat
}.

(** [NewLocalStorage]: an empty map (and no object allocated yet). *)
Definition NewLocalStorage : World := mkWorld [] ∅ 0%nat.

(** What a reader of the repository sees: the record behind each key. *)
Definition stored (w : World) : gmap string Sale :=
  omap (fun p : addr => heap w !! p) (m w).

(** ** Programs *)

Inductive Event : Type -> Type :=
| HttpGet (url : string) : Event http_result
| TimeNow : Event Time
| RandIntn (n : Z) : Event Z
| UuidNewString : Event string
| New (s : Sale) : Event addr
| Load (p : addr) : Event Sale
| Store (p : addr) (s : Sale) : Event unit
| MapSet (k : string) (p : addr) : Event unit
| MapGet (k : string) : Event (option addr)
| MapRange : Event (list addr)
| Panic : Event Empty_set.

Inductive Prog (A : Type) : Type :=
| Ret (a : A)
| Vis (X : Type) (e : Event X) (k : X -> Prog A).

Arguments Ret {A} a.
Arguments Vis {A X} e k.

Fixpoint bind {A B : Type} (p : Prog A) (f : A -> Prog B) : Prog B :=
  match p with
  | Ret a => f a
  | Vis e k => Vis e (fun x => bind (k x) f)
  end.

Definition trigger {X : Type} (e : Event X) : Prog X := Vis e Ret.

Declare Scope prog_scope.
Delimit Scope prog_scope with prog.
Notation "x ← y ; z" := (bind y (fun x => z))
  (at level 20, y at level 100, z at level 200, only parsing) : prog_scope.
Notation "' x ← y ; z" := (bind y (fun x => z))
  (at level 20, x pattern, y at level 100, z at level 200, only parsing)
  : prog_scope.
Notation "x ;; z" := (bind x (fun _ => z))
  (at level 100, z at level 200, only parsing, right associativity)
  : prog_scope.
Local Open Scope prog_scope.

(** One event on a world.  [None] is a Go panic (a dangling pointer,
    [rand.Intn] of a non-positive bound, an explicit [Panic]). *)
Definition handle (env : Env) {X : Type} (e : Event X) (w : World)
  : option (X * World) :=
  match e in Event X return option (X * World) with
  | HttpGet url =>
      Some (http_Get env (calls w) url, mkWorld (heap w) (m w) (S (calls w)))
  | TimeNow =>
      Some (time_Now env (calls w), mkWorld (heap w) (m w) (S (calls w)))
  | RandIntn n =>
      if 0 <? n
      then Some (rand_Int63 env (calls w) mod n,
                 mkWorld (heap w) (m w) (S (calls w)))
      else None
  | UuidNewString =>
      Some (UUID_String (uuid_New env (calls w)),
            mkWorld (heap w) (m w) (S (calls w)))
  | New s =>
      Some (length (heap w), mkWorld (heap w ++ [s]) (m w) (calls w))
  | Load p =>
      match heap w !! p with
      | Some s => Some (s, w)
      | None => None
      end
  | Store p s =>
      match heap w !! p with
      | Some _ => Some (tt, mkWorld (<[p := s]> (heap w)) (m w) (calls w))
      | None => None
      end
  | MapSet k p =>
      Some (tt, mkWorld (heap w) (<[k := p]> (m w)) (calls w))
  | MapGet k =>
      Some (m w !! k, w)
  | MapRange =>
      Some ((map_order env (calls w) (map_to_list (m w))).*2,
            mkWorld (heap w) (m w) (S (calls w)))
  | Panic => None
  end.

(** The result of a program and the world it leaves; [None] when it
    panics. *)
Fixpoint run {A : Type} (env : Env) (p : Prog A) (w : World)
  : option (A * World) :=
  match p with
  | Ret a => Some (a, w)
  | Vis e k =>
      match handle env e w with
      | Some (x, w') => run env (k x) w'
      | None => None
      end
  end.

(** Runs [p] up to its first event that [stop] selects and gives the world
    at that point, before the event happens; [None] when [p] ends (or
    panics) without such an event. *)
Fixpoint run_until {A : Type} (stop : forall X, Event X -> bool)
    (env : Env) (p : Prog A) (w : World) : option World :=
  match p with
  | Ret _ => None
  | Vis e k =>
      if stop _ e then Some w
      else match handle env e w with
           | Some (x, w') => run_until stop env (k x) w'
           | None => None
           end
  end.

Definition is_MapSet (X : Type) (e : Event X) : bool :=
  match e with MapSet _ _ => true | _ => false end.

Definition is_HttpGet (X : Type) (e : Event X) : bool :=
  match e with HttpGet _ => true | _ => false end.

(** No event that [bad] selects anywhere in the program, whatever the
    answers to the events before it. *)
Fixpoint never {A : Type} (bad : forall X, Event X -> bool) (p : Prog A)
  : Prop :=
  match p with
  | Ret _ => True
  | Vis e k => bad _ e = false /\ forall x, never bad (k x)
  end.

(** A [*Sale]: [None] is [nil]. *)
Definition ptr : Type := option addr.

Definition panic {A : Type} : Prog A :=
  Vis Panic (fun x : Empty_set => match x with end).

(** [*sale] *)
Definition deref (sale : ptr) : Prog Sale :=
  match sale with
  | Some p => trigger (Load p)
  | None => panic
  end.

(** [sale.f = v], as the update [upd] of the object [sale] points to. *)
Definition assign (sale : ptr) (upd : Sale -> Sale) : Prog unit :=
  match sale with
  | Some p => s ← trigger (Load p); trigger (Store p (upd s))
  | None => panic
  end.

(** ** storage.go *)

Module LocalStorage.

(** [LocalStorage.Set] ([Set] is a keyword here, hence the underscore). *)
Definition Set_ (sale : ptr) : Prog (option error) :=
  s ← deref sale;
  if String.eqb (ID s) "" then Ret (Some ErrEmptyID)
  else
    match sale with
    | Some p => trigger (MapSet (ID s) p);; Ret None
    | None => panic
    end.

(** [LocalStorage.Read]: the pointer kept in the map, not a copy. *)
Definition Read (id : string) : Prog (ptr * option error) :=
  o ← trigger (MapGet id);
  match o with
  | None => Ret (None, Some ErrNotFound)
  | Some p => Ret (Some p, None)
  end.

(** [LocalStorage.GetAll]: the pointers of the map, in the order of the
    iteration. *)
Definition GetAll : Prog (list ptr * option error) :=
  sales ← trigger MapRange;
  Ret (Some <$> sales, None).

End LocalStorage.

(** ** The service *)

(** [Service]: the storage is the [LocalStorage] of the world; the logger
    has no part in any result and is left out. *)
Record Service : Type := mkService { userAPIURL : string }.

(** The [%d] of [fmt.Errorf]. *)
Definition itoa (z : Z) : string := NilZero.string_of_int (Z.to_int z).

(** [Service.validateUser] *)
Definition validateUser (s : Service) (userID : string)
  : Prog (bool * option error) :=
  let url := userAPIURL s ++ "/users/" ++ userID in
  r ← trigger (HttpGet url);
  match r with
  | HttpFail msg =>
      Ret (false, Some (Wrapf "error making request to user API: " (NetError msg)))
  | HttpResp StatusCode =>
      if StatusCode =? StatusOK then Ret (true, None)
      else if StatusCode =? StatusNotFound then Ret (false, None)
      else Ret (false, Some (Errorf ("user API returned unexpected status: "
                                        ++ itoa StatusCode)))
  end.

Definition statuses : list string := ["pending"; "approved"; "rejected"].

(** [getRandomStatus]: [statuses[rand.Intn(len(statuses))]]. *)
Definition getRandomStatus : Prog string :=
  randomIndex ← trigger (RandIntn (Z.of_nat (length statuses)));
  match statuses !! Z.to_nat randomIndex with
  | Some st => Ret st
  | None => panic
  end.

(** [Service.CreateSale].  The fields of the struct literal are evaluated
    in the order they are written: the UUID, the random status, the two
    readings of the clock. *)
Definition CreateSale (s : Service) (userID : string) (amount : float)
  : Prog (ptr * option error) :=
  if PrimFloat.leb amount 0
  then Ret (None, Some (Errorf "amount must be greater than zero"))
  else
    '(userExists, err) ← validateUser s userID;
    match err with
    | Some e => Ret (None, Some (Wrapf "error validating user: " e))
    | None =>
        if negb userExists
        then Ret (None, Some (Errorf ("user with ID '" ++ userID ++ "' not found")))
        else
          id ← trigger UuidNewString;
          status ← getRandomStatus;
          createdAt ← trigger TimeNow;
          updatedAt ← trigger TimeNow;
          p ← trigger (New (mkSale id userID amount status createdAt updatedAt 1));
          let sale : ptr := Some p in
          err ← LocalStorage.Set_ sale;
          match err with
          | Some e => Ret (None, Some (Wrapf "failed to save sale: " e))
          | None => Ret (sale, None)
          end
    end.

(** [Service.UpdateSaleStatus].  The three assignments go through the
    pointer [Read] returned; [Set] comes after them. *)
Definition UpdateSaleStatus (s : Service) (saleID newStatus : string)
  : Prog (ptr * option error) :=
  '(sale, err) ← LocalStorage.Read saleID;
  match err with
  | Some _ => Ret (None, Some ErrNotFound)
  | None =>
      if negb (String.eqb newStatus "approved")
         && negb (String.eqb newStatus "rejected")
      then Ret (None, Some ErrInvalidStatus)
      else
        cur ← deref sale;
        if negb (String.eqb (Status cur) "pending")
        then Ret (None, Some ErrInvalidTransition)
        else
          assign sale (set_Status newStatus);;
          now ← trigger TimeNow;
          assign sale (set_UpdatedAt now);;
          assign sale incr_Version;;
          err ← LocalStorage.Set_ sale;
          match err with
          | Some e => Ret (None, Some e)
          | None => Ret (sale, None)
          end
  end.

(** Modelled from the spec: [type SalesMetadata struct] is not among the
    sources; the tests read [Quantity], [Approved], [Rejected], [Pending]
    and [TotalAmount].  The counters are the spec's counts. *)
Record SalesMetadata : Type := mkMeta {
  Quantity : Z;
  Approved : Z;
  Rejected : Z;
  Pending : Z;
  TotalAmount : float
}.

Definition emptyMeta : SalesMetadata := mkMeta 0 0 0 0 0%float.

(** Modelled from the spec: the aggregation of one matched record, section
    4.3 step 4: the count, the count of its status, the sum of the amounts. *)
Definition aggregate (meta : SalesMetadata) (cur : Sale) : SalesMetadata :=
  mkMeta (Quantity meta + 1)
         (if String.eqb (Status cur) "approved" then Approved meta + 1 else Approved meta)
         (if String.eqb (Status cur) "rejected" then Rejected meta + 1 else Rejected meta)
         (if String.eqb (Status cur) "pending" then Pending meta + 1 else Pending meta)
         (TotalAmount meta + Amount cur)%float.

(** Modelled from the spec: the filter of section 4.3 step 3: the record is
    of the user and, when a filter is given, has that status. *)
Definition matches (userID status : string) (cur : Sale) : bool :=
  String.eqb (UserID cur) userID
  && (String.eqb status "" || String.eqb (Status cur) status).

(** Modelled from the spec: the scan of [SearchSale] over all the records. *)
Fixpoint scanSales (userID status : string) (all : list ptr)
    (results : list ptr) (meta : SalesMetadata)
  : Prog (list ptr * SalesMetadata) :=
  match all with
  | [] => Ret (results, meta)
  | sale :: rest =>
      cur ← deref sale;
      if matches userID status cur
      then scanSales userID status rest (results ++ [sale]) (aggregate meta cur)
      else scanSales userID status rest results meta
  end.

(** Modelled from the spec: [Service.SearchSale] is not among the sources
    (only its tests are).  Section 4.3: the filter is empty or one of the
    three statuses, else [ErrInvalidStatus]; then the user check, with the
    errors of [CreateSale]; then the scan and the aggregation over the
    matched records. *)
Definition SearchSale (s : Service) (userID status : string)
  : Prog (list ptr * SalesMetadata * option error) :=
  if negb (String.eqb status "")
     && negb (bool_decide (status ∈ statuses))
  then Ret ([], emptyMeta, Some ErrInvalidStatus)
  else
    '(userExists, err) ← validateUser s userID;
    match err with
    | Some e => Ret ([], emptyMeta, Some (Wrapf "error validating user: " e))
    | None =>
        if negb userExists
        then Ret ([], emptyMeta,
                  Some (Errorf ("user with ID '" ++ userID ++ "' not found")))
        else
          '(all, err) ← LocalStorage.GetAll;
          match err with
          | Some e => Ret ([], emptyMeta, Some e)
          | None =>
              '(results, meta) ← scanSales userID status all [] emptyMeta;
              Ret (results, meta, None)
          end
    end.

(** ** Sequences of operations *)

Inductive Op : Type :=
| OpCreateSale (userID : string) (amount : float)
| OpUpdateSaleStatus (saleID newStatus : string)
| OpSearchSale (userID status : string).

(** One operation of the service: its error and the world it leaves. *)
Definition exec (env : Env) (s : Service) (op : Op) (w : World)
  : option (option error * World) :=
  match op with
  | OpCreateSale userID amount =>
      prod_map snd id <$> run env (CreateSale s userID amount) w
  | OpUpdateSaleStatus saleID newStatus =>
      prod_map snd id <$> run env (UpdateSaleStatus s saleID newStatus) w
  | OpSearchSale userID status =>
      prod_map snd id <$> run env (SearchSale s userID status) w
  end.

Definition step (env : Env) (s : Service) (w w' : World) : Prop :=
  exists op e, exec env s op w = Some (e, w').

(** The worlds the service reaches from an empty repository. *)
Definition reachable (env : Env) (s : Service) (w : World) : Prop :=
  rtc (step env s) NewLocalStorage w.

(** ** Closed forms of the operations *)

(** The answer of the user API to the request [validateUser] makes. *)
Definition user_api_answer (env : Env) (s : Service) (userID : string) (w : World) : http_result :=
  http_Get env (calls w) (userAPIURL s ++ "/users/" ++ userID).

(** The world after one call to the outside. *)
Definition after_call (w : World) : World := mkWorld (heap w) (m w) (S (calls w)).

(** A world with the same heap and map, later in the sequence of calls. *)
Definition later (n : nat) (w : World) : World :=
  mkWorld (heap w) (m w) (n + calls w).

(** The status at index [r mod 3] of [statuses]. *)
Definition pick (r : Z) : string :=
  if r mod 3 =? 0 then "pending"
  else if r mod 3 =? 1 then "approved" else "rejected".

(** The record [CreateSale] builds: the UUID, the random status and the two
    clock readings are the second to fifth calls it makes. *)
Definition new_sale (env : Env) (userID : string) (amount : float) (w : World) : Sale :=
  mkSale (UUID_String (uuid_New env (1 + calls w))) userID amount
         (pick (rand_Int63 env (2 + calls w)))
         (time_Now env (3 + calls w)) (time_Now env (4 + calls w)) 1.

(** The world after [CreateSale] stored its record. *)
Definition created (env : Env) (userID : string) (amount : float) (w : World) : World :=
  mkWorld (heap w ++ [new_sale env userID amount w])
          (<[ID (new_sale env userID amount w) := length (heap w)]> (m w))
          (5 + calls w).

(** The record after the three assignments of [UpdateSaleStatus]. *)
Definition updated (newStatus : string) (now : Time) (cur : Sale) : Sale :=
  incr_Version (set_UpdatedAt now (set_Status newStatus cur)).

Definition valid_newStatus (newStatus : string) : bool :=
  negb (negb (String.eqb newStatus "approved")
        && negb (String.eqb newStatus "rejected")).

(** The scan of [SearchSale] as a function of the heap: [None] when a
    pointer dangles. *)
Fixpoint scan (userID status : string) (h : list Sale) (ps : list addr)
    (results : list ptr) (meta : SalesMetadata)
  : option (list ptr * SalesMetadata) :=
  match ps with
  | [] => Some (results, meta)
  | p :: rest =>
      match h !! p with
      | None => None
      | Some cur =>
          if matches userID status cur
          then scan userID status h rest (results ++ [Some p]) (aggregate meta cur)
          else scan userID status h rest results meta
      end
  end.

(** The records [GetAll] hands to [SearchSale], in the order the
    environment gives to the iteration over the map. *)
Definition ranged (env : Env) (w : World) : list addr :=
  (map_order env (S (calls w)) (map_to_list (m w))).*2.

Definition valid_filter (status : string) : bool :=
  negb (negb (String.eqb status "") && negb (bool_decide (status ∈ statuses))).

(** The world after the assignments and the [Set] of [UpdateSaleStatus] on
    the record [cur] at [p]. *)
Definition committed (env : Env) (newStatus : string) (p : addr) (cur : Sale) (w : World) : World :=
  mkWorld (<[p := updated newStatus (time_Now env (calls w)) cur]> (heap w))
          (<[ID cur := p]> (m w)) (S (calls w)).

(** The same when [Set] refuses the record: the assignments stay. *)
Definition torn (env : Env) (newStatus : string) (p : addr) (cur : Sale) (w : World) : World :=
  mkWorld (<[p := updated newStatus (time_Now env (calls w)) cur]> (heap w))
          (m w) (S (calls w)).

Inductive effect (env : Env) (w : World) : option error -> World -> Prop :=
| effect_none (e : option error) (n : nat) :
    effect env w e (later n w)
| effect_create (userID : string) (amount : float) :
    effect env w None (created env userID amount w)
| effect_update (saleID newStatus : string) (p : addr) (cur : Sale) :
    m w !! saleID = Some p -> heap w !! p = Some cur ->
    Status cur = "pending" -> valid_newStatus newStatus = true ->
    ID cur <> "" ->
    effect env w None (committed env newStatus p cur w)
| effect_torn (saleID newStatus : string) (p : addr) (cur : Sale) :
    m w !! saleID = Some p -> heap w !! p = Some cur ->
    ID cur = "" ->
    effect env w (Some ErrEmptyID) (torn env newStatus p cur w).

(** ** Well-formed repositories *)

(** A stored record under the key [k], after [n] calls to the outside. *)
Record sale_ok (env : Env) (n : nat) (k : string) (sale : Sale) : Prop := mk_sale_ok {
  ok_ID : ID sale = k;
  ok_nonempty : k <> "";
  ok_status : Status sale ∈ statuses;
  ok_version : Version sale = 1 \/ (Version sale = 2 /\ Status sale <> "pending");
  ok_uuid : exists i, (i < n)%nat /\ k = UUID_String (uuid_New env i);
  ok_updated : exists i, (i < n)%nat /\ UpdatedAt sale = time_Now env i
}.

Definition wf (env : Env) (w : World) : Prop :=
  forall k p, m w !! k = Some p ->
    exists sale, heap w !! p = Some sale /\ sale_ok env (calls w) k sale.

(** The identifiers the UUID generator gives in the first [n] calls. *)
Definition uuids (env : Env) (n : nat) : list string :=
  (fun i => UUID_String (uuid_New env i)) <$> seq 0 n.

(** ** A concrete environment and service *)

(** The user API knows every user but "ghost"; the clock ticks with the
    calls; the random generator always draws 0; the n-th UUID ends in the
    byte n. *)
Definition demo_env : Env :=
  mkEnv (fun _ url =>
           if String.eqb url "http://localhost:8080/users/ghost"
           then HttpResp 404 else HttpResp 200)
        (fun n => 1000 + Z.of_nat n)
        (fun _ => 0)
        (fun n => (repeat Byte.x00 15 ++ [default Byte.x00 (Byte.of_nat n)])%list)
        (fun _ l => l).

Definition demo_svc : Service := mkService "http://localhost:8080".

Definition world_after (r : option (option error * World)) : World :=
  match r with
  | Some (_, w) => w
  | None => NewLocalStorage
  end.

(** The repository after [CreateSale("u1", 150.75)] on the empty one: one
    pending sale, under the identifier [demo_id]. *)
Definition demo_w1 : World :=
  Eval vm_compute in
    world_after (exec demo_env demo_svc (OpCreateSale "u1" 150.75%float) NewLocalStorage).

Definition demo_id : string := "00000000-0000-0000-0000-000000000001".

(** The same, approved. *)
Definition demo_w2 : World :=
  Eval vm_compute in
    world_after (exec demo_env demo_svc (OpUpdateSaleStatus demo_id "approved") demo_w1).

(** The environment of [demo_env] with a clock that stands still. *)
Definition stuck_env : Env :=
  mkEnv (http_Get demo_env) (fun _ => 1000) (rand_Int63 demo_env)
        (uuid_New demo_env) (map_order demo_env).

Definition stuck_w1 : World :=
  Eval vm_compute in
    world_after (exec stuck_env demo_svc (OpCreateSale "u1" 150.75%float) NewLocalStorage).

(** ** Working copies

    The claim of working copies, at a pending sale: up to the [Set] of
    [UpdateSaleStatus], a reader of the repository finds the record as it
    was before the call. *)
Definition working_copy (env : Env) (s : Service) (saleID newStatus : string) (w : World) : Prop :=
  forall w1, run_until is_MapSet env (UpdateSaleStatus s saleID newStatus) w = Some w1 ->
    stored w1 !! saleID = stored w !! saleID.

(** ** The search as a function *)

(** Whether the record at [p] passes the filter of [SearchSale]. *)
Definition selected (userID status : string) (h : list Sale) (p : addr) : bool :=
  match h !! p with
  | Some cur => matches userID status cur
  | None => false
  end.

(** The aggregation of the records at the addresses [ps], in this order. *)
Definition aggregate_all (h : list Sale) (ps : list addr) (meta : SalesMetadata) : SalesMetadata :=
  fold_left (fun acc p =>
               match h !! p with
               | Some cur => aggregate acc cur
               | None => acc
               end) ps meta.

Definition amount_of (h : list Sale) (sale : ptr) : float :=
  match sale ≫= (fun p => h !! p) with
  | Some cur => Amount cur
  | None => 0%float
  end.

(** The sum of the amounts of the records [results] point to, added from
    left to right. *)
Definition sum_amounts (h : list Sale) (results : list ptr) (init : float) : float :=
  fold_left (fun acc sale => (acc + amount_of h sale)%float) results init.

(** The iteration over a Go map visits every entry once, in some order. *)
Definition order_ok (env : Env) : Prop :=
  forall (n : nat) (l : list (string * addr)), map_order env n l ≡ₚ l.

(** The scenario of [TestSearchSale_Success], through the service: the
    draws make the four sales approved, pending, rejected and approved. *)
Definition test_env : Env :=
  mkEnv (http_Get demo_env) (time_Now demo_env)
        (fun n => match n with
                  | 2%nat => 1 | 7%nat => 0 | 12%nat => 2 | 17%nat => 1
                  | _ => 0
                  end)
        (uuid_New demo_env) (map_order demo_env).

Definition test_ops : list Op :=
  [OpCreateSale "user1" 100%float; OpCreateSale "user1" 200%float;
   OpCreateSale "user2" 50%float; OpCreateSale "user1" 150%float].

Definition test_world : World :=
  Eval vm_compute in
    fold_left (fun w op => world_after (exec test_env demo_svc op w))
              test_ops NewLocalStorage.

(** The error of an operation, as [err.Error()]. *)
Definition error_message {A : Type} (r : option (A * option error * World)) : option string :=
  match r with
  | Some (_, Some e, _) => Some (Error e)
  | _ => None
  end.

(** ** sales_handler.go *)

Module api.

(** The body of the request, as [ShouldBindJSON] fills it. *)
Record req : Type := mk_req { UserID : string; Amount : float }.

(** What [ctx.JSON] is given: [gin.H{"error": msg}] or a [*Sale], which
    is encoded as the record it points to ([None] for [nil]). *)
Inductive body : Type :=
| H_error (msg : string)
| sale_body (sale : option Sale).

(** [ctx.JSON(code, obj)] *)
Record response : Type := JSON { code : Z; obj : body }.

Definition StatusCreated : Z := 201.
Definition StatusBadRequest : Z := 400.
Definition StatusInternalServerError : Z := 500.

(** [salesHandler.handleCreateSale]; [bound] is the outcome of
    [ctx.ShouldBindJSON(&req)], [None] when it fails. *)
Definition handleCreateSale (salesService : Service) (bound : option req)
  : Prog response :=
  match bound with
  | None => Ret (JSON StatusBadRequest (H_error "invalid request payload"))
  | Some r =>
      '(sale, err) ← CreateSale salesService (UserID r) (Amount r);
      match err with
      | Some e =>
          if String.eqb (Error e) "amount must be greater than zero"
             || String.eqb (Error e) "user not found"
          then Ret (JSON StatusBadRequest (H_error (Error e)))
          else Ret (JSON StatusInternalServerError (H_error "failed to create sale"))
      | None =>
          match sale with
          | Some p =>
              cur ← trigger (Load p);
              Ret (JSON StatusCreated (sale_body (Some cur)))
          | None => Ret (JSON StatusCreated (sale_body None))
          end
      end
  end.

End api.

(** ** Histories of a record *)

(** [sale'] is [sale], or [sale] was pending and [sale'] is [sale] after
    the assignments of one [UpdateSaleStatus]. *)
Definition written_once (sale sale' : Sale) : Prop :=
  sale' = sale \/
  (Status sale = "pending" /\
   exists newStatus now,
     valid_newStatus newStatus = true /\ sale' = updated newStatus now sale).

(** The two timestamps of a record are readings of the clock, the one of
    [CreatedAt] not after the one of [UpdatedAt], both before call [n]. *)
Definition stamped (env : Env) (n : nat) (sale : Sale) : Prop :=
  exists i j, (i <= j < n)%nat /\
    CreatedAt sale = time_Now env i /\ UpdatedAt sale = time_Now env j.

(** A clock that never goes back. *)
Definition clock_monotone (env : Env) : Prop :=
  forall i j, (i <= j)%nat -> time_Now env i <= time_Now env j.

(** * Properties *)

(** ** Comparisons of [float64] *)

(** [amount > 0] excludes [amount <= 0], also for infinities and NaN. *)
Lemma positive_not_le_zero (a : float) :
  PrimFloat.ltb 0 a = true -> PrimFloat.leb a 0 = false.
Proof.
  rewrite ltb_spec, leb_spec. unfold SFltb, SFleb.
  change (Prim2SF 0) with (S754_zero false).
  destruct (Prim2SF a) as [sg | sg | | sg mant ex]; simpl; try discriminate.
  all: destruct sg; simpl; first [discriminate | reflexivity].
Qed.

(** ** The user existence check *)

Lemma validateUser_run (env : Env) (s : Service) (userID : string) (w : World) :
  run env (validateUser s userID) w =
  Some (match user_api_answer env s userID w with
        | HttpFail msg =>
            (false, Some (Wrapf "error making request to user API: "
                                (NetError msg)))
        | HttpResp code =>
            if code =? StatusOK then (true, None)
            else if code =? StatusNotFound then (false, None)
            else (false, Some (Errorf ("user API returned unexpected status: "
                                         ++ itoa code)))
        end, after_call w).
Proof.
  unfold validateUser, user_api_answer. simpl.
  destruct (http_Get env (calls w) _) as [msg | code]; simpl; [reflexivity |].
  destruct (code =? StatusOK); [reflexivity |].
  destruct (code =? StatusNotFound); reflexivity.
Qed.

(** C1: [validateUser] returns [(true, nil)] exactly when the user API
    answers 200, [(false, nil)] exactly when it answers 404, and
    [(false, err)] with [err] non-nil for every other outcome, a failed
    request or any other status; it always returns. *)
Theorem validateUser_three_way (env : Env) (s : Service) (userID : string) (w : World) :
  exists r, run env (validateUser s userID) w = Some (r, after_call w) /\
    (r = (true, None) <-> user_api_answer env s userID w = HttpResp 200) /\
    (r = (false, None) <-> user_api_answer env s userID w = HttpResp 404) /\
    (user_api_answer env s userID w <> HttpResp 200 ->
     user_api_answer env s userID w <> HttpResp 404 ->
     exists e, r = (false, Some e)).
Proof.
  rewrite validateUser_run. eexists; split; [reflexivity |].
  destruct (user_api_answer env s userID w) as [msg | code].
  - repeat split; try discriminate. intros _ _. eauto.
  - unfold StatusOK, StatusNotFound.
    destruct (Z.eqb_spec code 200) as [-> | Hn200].
    { repeat split; try discriminate; try reflexivity. congruence. }
    destruct (Z.eqb_spec code 404) as [-> | Hn404].
    { repeat split; try discriminate; try reflexivity. congruence. }
    repeat split; try discriminate; try congruence. intros _ _. eauto.
Qed.

(** ** Running programs *)

Lemma run_bind {A B : Type} (env : Env) (p : Prog A) (f : A -> Prog B) (w : World) :
  run env (bind p f) w =
  match run env p w with
  | Some (a, w') => run env (f a) w'
  | None => None
  end.
Proof.
  revert w. induction p as [a | X e k IH]; intros w; simpl; [reflexivity |].
  destruct (handle env e w) as [[x w'] |]; [apply IH | reflexivity].
Qed.

Lemma never_bind {A B : Type} (bad : forall X, Event X -> bool)
    (p : Prog A) (f : A -> Prog B) :
  never bad p -> (forall a, never bad (f a)) -> never bad (bind p f).
Proof.
  intros Hp Hf. induction p as [a | X e k IH]; simpl in *; [apply Hf |].
  destruct Hp as [He Hk]. split; [exact He |]. intros x. apply IH, Hk.
Qed.

Lemma UUID_String_nonempty (u : UUID) : UUID_String u <> "".
Proof.
  unfold UUID_String. destruct (hex_Encode (firstn 4 u)); discriminate.
Qed.

Lemma UUID_String_eqb (u : UUID) : String.eqb (UUID_String u) "" = false.
Proof. apply String.eqb_neq, UUID_String_nonempty. Qed.

Lemma statuses_pick (r : Z) : statuses !! Z.to_nat (r mod 3) = Some (pick r).
Proof.
  unfold pick. pose proof (Z.mod_pos_bound r 3 eq_refl) as Hr.
  destruct (Z.eqb_spec (r mod 3) 0) as [-> | H0]; [reflexivity |].
  destruct (Z.eqb_spec (r mod 3) 1) as [-> | H1]; [reflexivity |].
  replace (r mod 3) with 2 by lia. reflexivity.
Qed.

Lemma pick_valid (r : Z) : pick r ∈ statuses.
Proof.
  unfold pick, statuses.
  destruct (r mod 3 =? 0); [| destruct (r mod 3 =? 1)]; repeat constructor.
Qed.

Lemma getRandomStatus_run (env : Env) (w : World) :
  run env getRandomStatus w = Some (pick (rand_Int63 env (calls w)), later 1 w).
Proof.
  unfold getRandomStatus. simpl.
  change (Z.pos (Pos.of_succ_nat 2)) with 3.
  rewrite statuses_pick. reflexivity.
Qed.

Lemma Read_run (env : Env) (id : string) (w : World) :
  run env (LocalStorage.Read id) w =
  Some (match m w !! id with
        | Some p => (Some p, None)
        | None => (None, Some ErrNotFound)
        end, w).
Proof. unfold LocalStorage.Read. simpl. destruct (m w !! id); reflexivity. Qed.

Lemma Set_run (env : Env) (p : addr) (sale : Sale) (w : World) :
  heap w !! p = Some sale ->
  run env (LocalStorage.Set_ (Some p)) w =
  Some (if String.eqb (ID sale) "" then (Some ErrEmptyID, w)
        else (None, mkWorld (heap w) (<[ID sale := p]> (m w)) (calls w))).
Proof.
  intros Hp. unfold LocalStorage.Set_. simpl. rewrite Hp. simpl.
  destruct (String.eqb (ID sale) ""); reflexivity.
Qed.

Lemma assign_run (env : Env) (p : addr) (upd : Sale -> Sale) (sale : Sale) (w : World) :
  heap w !! p = Some sale ->
  run env (assign (Some p) upd) w =
  Some (tt, mkWorld (<[p := upd sale]> (heap w)) (m w) (calls w)).
Proof. intros Hp. simpl. rewrite Hp. simpl. rewrite Hp. reflexivity. Qed.

Lemma CreateSale_run (env : Env) (s : Service) (userID : string) (amount : float) (w : World) :
  run env (CreateSale s userID amount) w =
  Some
    (if PrimFloat.leb amount 0
     then (None, Some (Errorf "amount must be greater than zero"), w)
     else
       match user_api_answer env s userID w with
       | HttpFail msg =>
           (None, Some (Wrapf "error validating user: "
                          (Wrapf "error making request to user API: " (NetError msg))),
            later 1 w)
       | HttpResp code =>
           if code =? StatusOK
           then (Some (length (heap w)), None, created env userID amount w)
           else if code =? StatusNotFound
           then (None, Some (Errorf ("user with ID '" ++ userID ++ "' not found")),
                 later 1 w)
           else (None, Some (Wrapf "error validating user: "
                               (Errorf ("user API returned unexpected status: "
                                          ++ itoa code))),
                 later 1 w)
       end).
Proof.
  unfold CreateSale. destruct (PrimFloat.leb amount 0); [reflexivity |].
  rewrite run_bind, validateUser_run.
  destruct (user_api_answer env s userID w) as [msg | code]; [reflexivity |].
  destruct (code =? StatusOK); [| destruct (code =? StatusNotFound); reflexivity].
  cbn [negb]. rewrite run_bind. cbn [trigger run handle after_call calls heap m].
  rewrite run_bind, getRandomStatus_run. cbn [later calls heap m].
  cbn [bind trigger run handle calls heap m].
  rewrite run_bind.
  erewrite Set_run by (cbn [heap]; apply list_lookup_middle; reflexivity).
  cbn [ID]. rewrite UUID_String_eqb. reflexivity.
Qed.

Lemma UpdateSaleStatus_run (env : Env) (s : Service) (saleID newStatus : string) (w : World) :
  run env (UpdateSaleStatus s saleID newStatus) w =
  match m w !! saleID with
  | None => Some (None, Some ErrNotFound, w)
  | Some p =>
      if valid_newStatus newStatus then
        match heap w !! p with
        | None => None
        | Some cur =>
            if String.eqb (Status cur) "pending" then
              let h := <[p := updated newStatus (time_Now env (calls w)) cur]> (heap w) in
              if String.eqb (ID cur) ""
              then Some (None, Some ErrEmptyID, mkWorld h (m w) (S (calls w)))
              else Some (Some p, None,
                         mkWorld h (<[ID cur := p]> (m w)) (S (calls w)))
            else Some (None, Some ErrInvalidTransition, w)
        end
      else Some (None, Some ErrInvalidStatus, w)
  end.
Proof.
  unfold UpdateSaleStatus, valid_newStatus. rewrite run_bind, Read_run.
  destruct (m w !! saleID) as [p |]; [| reflexivity].
  destruct (negb (String.eqb newStatus "approved")
            && negb (String.eqb newStatus "rejected")); [reflexivity |].
  cbn [negb]. rewrite run_bind. cbn [deref trigger run handle].
  destruct (heap w !! p) as [cur |] eqn:Hp; [| reflexivity].
  destruct (String.eqb (Status cur) "pending"); [| reflexivity].
  cbn [negb]. pose proof (lookup_lt_Some _ _ _ Hp) as Hlt.
  rewrite run_bind. erewrite assign_run by exact Hp.
  rewrite run_bind. cbn [trigger run handle calls heap m].
  rewrite run_bind.
  erewrite assign_run by (cbn [heap]; apply list_lookup_insert_eq; exact Hlt).
  cbn [heap m calls]. rewrite list_insert_insert_eq.
  rewrite run_bind.
  erewrite assign_run by (cbn [heap]; apply list_lookup_insert_eq; exact Hlt).
  cbn [heap m calls]. rewrite list_insert_insert_eq.
  rewrite run_bind.
  erewrite Set_run by (cbn [heap]; apply list_lookup_insert_eq; exact Hlt).
  cbn [heap m calls]. unfold updated. cbn [ID incr_Version set_UpdatedAt set_Status].
  destruct (String.eqb (ID cur) ""); reflexivity.
Qed.

Lemma scanSales_run (env : Env) (userID status : string) (ps : list addr)
    (results : list ptr) (meta : SalesMetadata) (w : World) :
  run env (scanSales userID status (Some <$> ps) results meta) w =
  (fun r => (r, w)) <$> scan userID status (heap w) ps results meta.
Proof.
  revert results meta. induction ps as [| p rest IH]; intros results meta;
    [reflexivity |].
  cbn [fmap list_fmap scanSales scan]. rewrite run_bind.
  cbn [deref trigger run handle].
  destruct (heap w !! p) as [cur |]; [| reflexivity].
  destruct (matches userID status cur); apply IH.
Qed.

Lemma SearchSale_run (env : Env) (s : Service) (userID status : string) (w : World) :
  run env (SearchSale s userID status) w =
  if valid_filter status then
    match user_api_answer env s userID w with
    | HttpFail msg =>
        Some ([], emptyMeta,
              Some (Wrapf "error validating user: "
                      (Wrapf "error making request to user API: " (NetError msg))),
              later 1 w)
    | HttpResp code =>
        if code =? StatusOK then
          match scan userID status (heap w) (ranged env w) [] emptyMeta with
          | Some (results, meta) => Some (results, meta, None, later 2 w)
          | None => None
          end
        else if code =? StatusNotFound
        then Some ([], emptyMeta,
                   Some (Errorf ("user with ID '" ++ userID ++ "' not found")),
                   later 1 w)
        else Some ([], emptyMeta,
                   Some (Wrapf "error validating user: "
                           (Errorf ("user API returned unexpected status: "
                                      ++ itoa code))),
                   later 1 w)
    end
  else Some ([], emptyMeta, Some ErrInvalidStatus, w).
Proof.
  unfold SearchSale, valid_filter.
  destruct (negb (String.eqb status "") && negb (bool_decide (status ∈ statuses)));
    [reflexivity |].
  cbn [negb]. rewrite run_bind, validateUser_run.
  destruct (user_api_answer env s userID w) as [msg | code]; [reflexivity |].
  destruct (code =? StatusOK); [| destruct (code =? StatusNotFound); reflexivity].
  cbn [negb]. rewrite run_bind.
  cbn [LocalStorage.GetAll bind trigger run handle after_call calls heap m].
  rewrite run_bind, scanSales_run. cbn [heap]. fold (ranged env w).
  destruct (scan userID status (heap w) (ranged env w) [] emptyMeta) as [[results meta] |];
    reflexivity.
Qed.

(** ** What one operation does to the world *)

Lemma later_0 (w : World) : later 0 w = w.
Proof. destruct w; reflexivity. Qed.

Lemma exec_effect (env : Env) (s : Service) (op : Op) (w w' : World) (e : option error) :
  exec env s op w = Some (e, w') -> effect env w e w'.
Proof.
  destruct op as [userID amount | saleID newStatus | userID status]; cbn [exec].
  - rewrite CreateSale_run. cbn [fmap option_fmap option_map prod_map fst snd].
    destruct (PrimFloat.leb amount 0).
    { intros [= <- <-]. rewrite <- (later_0 w) at 2. constructor. }
    destruct (user_api_answer env s userID w) as [msg | code].
    { intros [= <- <-]. constructor. }
    destruct (code =? StatusOK). { intros [= <- <-]. constructor. }
    destruct (code =? StatusNotFound); intros [= <- <-]; constructor.
  - rewrite UpdateSaleStatus_run.
    destruct (m w !! saleID) as [p |] eqn:Hm; cbn [fmap option_fmap option_map prod_map fst snd].
    2: { intros [= <- <-]. rewrite <- (later_0 w) at 2. constructor. }
    destruct (valid_newStatus newStatus) eqn:Hv.
    2: { intros [= <- <-]. rewrite <- (later_0 w) at 2. constructor. }
    destruct (heap w !! p) as [cur |] eqn:Hp; [| discriminate].
    destruct (String.eqb_spec (Status cur) "pending") as [Hs | Hs].
    2: { intros [= <- <-]. rewrite <- (later_0 w) at 2. constructor. }
    cbn zeta. destruct (String.eqb_spec (ID cur) "") as [Hid | Hid];
      intros [= <- <-]; econstructor; eassumption.
  - rewrite SearchSale_run. destruct (valid_filter status).
    2: { intros [= <- <-]. rewrite <- (later_0 w) at 2. constructor. }
    destruct (user_api_answer env s userID w) as [msg | code].
    { intros [= <- <-]. constructor. }
    destruct (code =? StatusOK).
    { destruct (scan _ _ _ _ _ _) as [[results meta] |]; [| discriminate].
      intros [= <- <-]. constructor. }
    destruct (code =? StatusNotFound); intros [= <- <-]; constructor.
Qed.

(** ** The invariant of the repository *)

Lemma sale_ok_mono (env : Env) (n n' : nat) (k : string) (sale : Sale) :
  (n <= n')%nat -> sale_ok env n k sale -> sale_ok env n' k sale.
Proof.
  intros Hle [H1 H2 H3 H4 (i & Hi & H5) (j & Hj & H6)].
  split; try assumption; [exists i | exists j]; split; try assumption; lia.
Qed.

Lemma wf_empty (env : Env) : wf env NewLocalStorage.
Proof. intros k p Hk. cbn in Hk. rewrite lookup_empty in Hk. discriminate. Qed.

Lemma stored_lookup (w : World) (k : string) (sale : Sale) :
  stored w !! k = Some sale <->
  exists p, m w !! k = Some p /\ heap w !! p = Some sale.
Proof.
  unfold stored. rewrite lookup_omap.
  destruct (m w !! k) as [p |]; cbn.
  - split; [intros H; eauto | intros (p' & [= <-] & H); exact H].
  - split; [discriminate | intros (p' & [=] & _)].
Qed.

Lemma new_sale_ok (env : Env) (userID : string) (amount : float) (w : World) :
  sale_ok env (5 + calls w) (ID (new_sale env userID amount w))
          (new_sale env userID amount w).
Proof.
  split; cbn [new_sale ID Status Version UpdatedAt].
  - reflexivity.
  - apply UUID_String_nonempty.
  - apply pick_valid.
  - left; reflexivity.
  - exists (1 + calls w)%nat. split; [lia | reflexivity].
  - exists (4 + calls w)%nat. split; [lia | reflexivity].
Qed.

Lemma wrap_int_small (z : Z) : min_int <= z <= max_int -> wrap_int z = z.
Proof.
  unfold min_int, max_int, wrap_int. intros Hz.
  rewrite Z.mod_small by lia. lia.
Qed.

Lemma updated_ok (env : Env) (n : nat) (k newStatus : string) (cur : Sale) :
  sale_ok env n k cur -> Status cur = "pending" ->
  valid_newStatus newStatus = true ->
  sale_ok env (S n) k (updated newStatus (time_Now env n) cur).
Proof.
  intros [H1 H2 H3 H4 (i & Hi & H5) _] Hpend Hv.
  assert (newStatus = "approved" \/ newStatus = "rejected") as Hns.
  { unfold valid_newStatus in Hv.
    destruct (String.eqb_spec newStatus "approved"); [left; assumption |].
    destruct (String.eqb_spec newStatus "rejected"); [right; assumption |].
    discriminate. }
  assert (Version cur = 1) as Hver by (destruct H4 as [? | [_ ?]]; congruence).
  split; cbn [updated incr_Version set_UpdatedAt set_Status ID Status Version UpdatedAt].
  - exact H1.
  - exact H2.
  - unfold statuses. destruct Hns as [-> | ->]; repeat constructor.
  - right. rewrite Hver. split; [reflexivity |].
    destruct Hns as [-> | ->]; discriminate.
  - exists i. split; [lia | exact H5].
  - exists n. split; [lia | reflexivity].
Qed.

Lemma wf_key_addr (env : Env) (w : World) (k k' : string) (p : addr) :
  wf env w -> m w !! k = Some p -> m w !! k' = Some p -> k = k'.
Proof.
  intros Hwf Hk Hk'.
  destruct (Hwf k p Hk) as (sale & Hp & [Hid _ _ _ _ _]).
  destruct (Hwf k' p Hk') as (sale' & Hp' & [Hid' _ _ _ _ _]).
  congruence.
Qed.

(** On a well-formed repository the [Set] of [UpdateSaleStatus] finds the
    key already bound to the pointer it writes. *)
Lemma committed_map (env : Env) (w : World) (saleID : string) (p : addr) (cur : Sale) :
  wf env w -> m w !! saleID = Some p -> heap w !! p = Some cur ->
  ID cur = saleID /\ <[ID cur := p]> (m w) = m w.
Proof.
  intros Hwf Hm Hp. destruct (Hwf _ _ Hm) as (sale & Hp' & [Hid _ _ _ _ _]).
  assert (sale = cur) as -> by congruence.
  split; [exact Hid |]. rewrite Hid. apply insert_id, Hm.
Qed.

Lemma wf_effect (env : Env) (w w' : World) (e : option error) :
  wf env w -> effect env w e w' -> wf env w' /\ (calls w <= calls w')%nat.
Proof.
  intros Hwf Heff. destruct Heff as [e n | userID amount
    | saleID newStatus p cur Hm Hp Hpend Hv Hid | saleID newStatus p cur Hm Hp Hid].
  - split; [| cbn; lia]. intros k p Hk.
    destruct (Hwf k p Hk) as (sale & Hp & Hok).
    exists sale. split; [exact Hp |]. eapply sale_ok_mono; [| exact Hok]. cbn; lia.
  - split; [| cbn; lia]. intros k p Hk. cbn [created m heap calls] in *.
    destruct (decide (ID (new_sale env userID amount w) = k)) as [<- | Hne].
    + rewrite lookup_insert_eq in Hk. injection Hk as <-.
      eexists. split; [apply list_lookup_middle; reflexivity | apply new_sale_ok].
    + rewrite lookup_insert_ne in Hk by exact Hne.
      destruct (Hwf k p Hk) as (sale & Hp & Hok).
      exists sale. split; [apply lookup_app_l_Some, Hp |].
      eapply sale_ok_mono; [| exact Hok]. lia.
  - split; [| cbn; lia].
    destruct (committed_map env w saleID p cur Hwf Hm Hp) as [Hcur Hins].
    destruct (Hwf _ _ Hm) as (sale & Hp' & Hok).
    assert (sale = cur) as -> by congruence.
    intros k q Hk. unfold committed in *. cbn [m heap calls] in *.
    rewrite Hins in Hk.
    destruct (decide (q = p)) as [-> | Hq].
    + assert (k = saleID) as -> by (eapply wf_key_addr; eassumption).
      eexists. split.
      * apply list_lookup_insert_eq. eapply lookup_lt_Some, Hp.
      * apply updated_ok; assumption.
    + destruct (Hwf k q Hk) as (sale & Hq' & Hok').
      exists sale. split; [rewrite list_lookup_insert_ne by congruence; exact Hq' |].
      eapply sale_ok_mono; [| exact Hok']. lia.
  - exfalso. destruct (Hwf _ _ Hm) as (sale & Hp' & [Hid' Hne _ _ _ _]).
    congruence.
Qed.

Lemma wf_step (env : Env) (s : Service) (w w' : World) :
  wf env w -> step env s w w' -> wf env w' /\ (calls w <= calls w')%nat.
Proof.
  intros Hwf (op & e & Hex). eapply wf_effect; [exact Hwf |].
  eapply exec_effect, Hex.
Qed.

Lemma wf_steps (env : Env) (s : Service) (w w' : World) :
  wf env w -> rtc (step env s) w w' -> wf env w' /\ (calls w <= calls w')%nat.
Proof.
  intros Hwf Hrtc. induction Hrtc as [w | w w1 w2 Hstep _ IH]; [split; [exact Hwf | lia] |].
  destruct (wf_step _ _ _ _ Hwf Hstep) as [Hwf1 Hle].
  destruct (IH Hwf1) as [Hwf2 Hle2]. split; [exact Hwf2 | lia].
Qed.

Lemma wf_reachable (env : Env) (s : Service) (w : World) :
  reachable env s w -> wf env w.
Proof. intros Hr. eapply wf_steps; [apply wf_empty | exact Hr]. Qed.

(** ** Identifiers never repeat *)

Lemma uuids_inj (env : Env) (n i j : nat) :
  NoDup (uuids env n) -> (i < n)%nat -> (j < n)%nat ->
  UUID_String (uuid_New env i) = UUID_String (uuid_New env j) -> i = j.
Proof.
  intros Hnd Hi Hj Heq. rewrite NoDup_alt in Hnd.
  apply (Hnd i j (UUID_String (uuid_New env i))); unfold uuids;
    rewrite list_lookup_fmap, lookup_seq_lt by assumption; cbn; congruence.
Qed.

Lemma uuids_prefix (env : Env) (n n' : nat) :
  (n <= n')%nat -> NoDup (uuids env n') -> NoDup (uuids env n).
Proof.
  intros Hle Hnd. replace n' with (n + (n' - n))%nat in Hnd by lia.
  unfold uuids in *. rewrite seq_app, fmap_app in Hnd.
  apply NoDup_app in Hnd. apply Hnd.
Qed.

Lemma version_effect (env : Env) (w w' : World) (e : option error) (k : string) (sale : Sale) :
  wf env w -> effect env w e w' -> NoDup (uuids env (calls w')) ->
  stored w !! k = Some sale ->
  exists sale', stored w' !! k = Some sale' /\ Version sale <= Version sale'.
Proof.
  intros Hwf Heff Hnd Hk. apply stored_lookup in Hk as (p & Hm & Hp).
  destruct (Hwf _ _ Hm) as (sale0 & Hp0 & Hok).
  assert (sale0 = sale) as -> by congruence.
  destruct Heff as [e n | userID amount
    | saleID newStatus q cur Hmq Hq Hpend Hv Hid | saleID newStatus q cur Hmq Hq Hid].
  - exists sale. split; [| lia]. apply stored_lookup. exists p. cbn. auto.
  - exists sale. split; [| lia]. apply stored_lookup. exists p.
    cbn [created m heap calls] in *. split; [| apply lookup_app_l_Some, Hp].
    rewrite lookup_insert_ne; [exact Hm |]. cbn [new_sale ID]. intros Heq.
    destruct Hok as [_ _ _ _ (i & Hi & Hki) _]. rewrite Hki in Heq.
    apply (uuids_inj env (5 + calls w)) in Heq; [lia | exact Hnd | lia | lia].
  - destruct (committed_map env w saleID q cur Hwf Hmq Hq) as [Hcur Hins].
    unfold committed in *. cbn [calls] in Hnd.
    destruct (decide (p = q)) as [-> | Hpq].
    + assert (sale = cur) as -> by congruence.
      eexists. split.
      * apply stored_lookup. exists q. cbn [m heap]. rewrite Hins. split; [exact Hm |].
        apply list_lookup_insert_eq. eapply lookup_lt_Some, Hq.
      * cbn [updated incr_Version set_UpdatedAt set_Status Version].
        destruct Hok as [_ _ _ [Hver | [Hver Hnp]] _ _]; [| congruence].
        rewrite Hver. rewrite wrap_int_small by (unfold min_int, max_int; lia). lia.
    + exists sale. split; [| lia]. apply stored_lookup. exists p. cbn [m heap].
      rewrite Hins. split; [exact Hm |].
      rewrite list_lookup_insert_ne by congruence. exact Hp.
  - exfalso. destruct (Hwf _ _ Hmq) as (sale' & Hq' & [Hid' Hne _ _ _ _]).
    congruence.
Qed.

Lemma version_steps (env : Env) (s : Service) (w w' : World) (k : string) (sale : Sale) :
  wf env w -> rtc (step env s) w w' -> NoDup (uuids env (calls w')) ->
  stored w !! k = Some sale ->
  exists sale', stored w' !! k = Some sale' /\ Version sale <= Version sale'.
Proof.
  intros Hwf Hrtc. revert sale.
  induction Hrtc as [w | w w1 w2 Hstep Hrest IH]; intros sale Hnd Hk.
  { exists sale. split; [exact Hk | lia]. }
  destruct (wf_step _ _ _ _ Hwf Hstep) as [Hwf1 Hle].
  destruct (wf_steps _ _ _ _ Hwf1 Hrest) as [_ Hle2].
  destruct Hstep as (op & e & Hex). apply exec_effect in Hex.
  destruct (version_effect env w w1 e k sale Hwf Hex) as (sale1 & Hk1 & Hv1);
    [eapply uuids_prefix; [exact Hle2 | exact Hnd] | exact Hk |].
  destruct (IH Hwf1 sale1 Hnd Hk1) as (sale2 & Hk2 & Hv2).
  exists sale2. split; [exact Hk2 | lia].
Qed.

(** ** The concrete worlds *)

Lemma demo_w1_reachable : reachable demo_env demo_svc demo_w1.
Proof.
  apply rtc_once. exists (OpCreateSale "u1" 150.75%float), None.
  vm_compute. reflexivity.
Qed.

Lemma demo_w2_reachable : reachable demo_env demo_svc demo_w2.
Proof.
  eapply rtc_r; [apply demo_w1_reachable |].
  exists (OpUpdateSaleStatus demo_id "approved"), None.
  vm_compute. reflexivity.
Qed.

Lemma valid_newStatus_spec (newStatus : string) :
  valid_newStatus newStatus = true <->
  newStatus = "approved" \/ newStatus = "rejected".
Proof.
  unfold valid_newStatus.
  destruct (String.eqb_spec newStatus "approved") as [Ha | Ha];
    destruct (String.eqb_spec newStatus "rejected") as [Hr | Hr]; cbn;
    intuition congruence.
Qed.

(** ** The package's tests, on the model *)

Example test_CreateSale_InvalidAmount :
  error_message (run demo_env (CreateSale demo_svc "test-user-id" 0%float) NewLocalStorage)
  = Some "amount must be greater than zero".
Proof. vm_compute. reflexivity. Qed.

Example test_CreateSale_UserNotFound :
  error_message (run demo_env (CreateSale demo_svc "ghost" 100%float) NewLocalStorage)
  = Some "user with ID 'ghost' not found".
Proof. vm_compute. reflexivity. Qed.

Example test_UpdateSaleStatus_NotFound :
  run demo_env (UpdateSaleStatus demo_svc "non-existent-sale" "approved") NewLocalStorage
  = Some (None, Some ErrNotFound, NewLocalStorage).
Proof. vm_compute. reflexivity. Qed.

Example test_UpdateSaleStatus_InvalidNewStatus :
  run demo_env (UpdateSaleStatus demo_svc demo_id "invalid_status") demo_w1
  = Some (None, Some ErrInvalidStatus, demo_w1).
Proof. vm_compute. reflexivity. Qed.

Example test_SearchSale_pending :
  fst <$> run test_env (SearchSale demo_svc "user1" "pending") test_world
  = Some ([Some 1%nat], mkMeta 1 0 0 1 200%float, None).
Proof. vm_compute. reflexivity. Qed.

Example test_SearchSale_user2 :
  fst <$> run test_env (SearchSale demo_svc "user2" "") test_world
  = Some ([Some 2%nat], mkMeta 1 0 1 0 50%float, None).
Proof. vm_compute. reflexivity. Qed.

Example test_SearchSale_InvalidStatus :
  (fun r => errors_Is (default ErrNotFound (snd (fst r))) ErrInvalidStatus)
    <$> run test_env (SearchSale demo_svc "user1" "invalid") test_world
  = Some true.
Proof. vm_compute. reflexivity. Qed.

Example test_ValidateUser_InternalServerError :
  fst <$> run (with_http (fun _ _ => HttpResp 500) demo_env)
              (validateUser demo_svc "server-error") NewLocalStorage
  = Some (false, Some (Errorf "user API returned unexpected status: 500")).
Proof. vm_compute. reflexivity. Qed.

(** ** The status transitions *)

(** C2: on a stored sale, [UpdateSaleStatus] fails with [ErrInvalidStatus]
    when [newStatus] is neither "approved" nor "rejected", fails with
    [ErrInvalidTransition] when [newStatus] is one of the two and the sale
    is not pending, and succeeds when it is one of the two and the sale is
    pending (its id is not empty: [Set] stored it); it succeeds in no other
    case, and these failures leave the world as it was, so an approved or
    rejected sale stays as it is. *)
Theorem UpdateSaleStatus_transitions (env : Env) (s : Service) (w : World)
    (saleID newStatus : string) (cur : Sale) :
  stored w !! saleID = Some cur ->
  let r := run env (UpdateSaleStatus s saleID newStatus) w in
  (newStatus <> "approved" -> newStatus <> "rejected" ->
   r = Some (None, Some ErrInvalidStatus, w)) /\
  (newStatus = "approved" \/ newStatus = "rejected" ->
   Status cur <> "pending" ->
   r = Some (None, Some ErrInvalidTransition, w)) /\
  (newStatus = "approved" \/ newStatus = "rejected" ->
   Status cur = "pending" -> ID cur <> "" ->
   exists p w', r = Some (Some p, None, w') /\
     stored w' !! saleID = Some (updated newStatus (time_Now env (calls w)) cur)) /\
  (forall p w', r = Some (p, None, w') ->
     Status cur = "pending" /\ (newStatus = "approved" \/ newStatus = "rejected")) /\
  (Status cur = "approved" \/ Status cur = "rejected" ->
   exists e, r = Some (None, Some e, w) /\
     (e = ErrInvalidStatus \/ e = ErrInvalidTransition)).
Proof.
  intros Hcur r. apply stored_lookup in Hcur as (p & Hm & Hp).
  subst r. rewrite UpdateSaleStatus_run, Hm, Hp. cbn zeta.
  destruct (valid_newStatus newStatus) eqn:Hv.
  - apply valid_newStatus_spec in Hv as Hns.
    destruct (String.eqb_spec (Status cur) "pending") as [Hs | Hs].
    + split; [intros; destruct Hns; congruence |].
      split; [intros; congruence |].
      split.
      { intros _ _ Hne. apply String.eqb_neq in Hne. rewrite Hne.
        do 2 eexists. split; [reflexivity |].
        apply stored_lookup. exists p. cbn [m heap]. split.
        - rewrite lookup_insert. destruct (decide (ID cur = saleID)); [reflexivity | exact Hm].
        - apply list_lookup_insert_eq. eapply lookup_lt_Some, Hp. }
      split.
      { intros q w' _. split; assumption. }
      intros [Hc | Hc]; rewrite Hs in Hc; discriminate.
    + split; [intros; destruct Hns; congruence |].
      split; [reflexivity |].
      split; [intros; congruence |].
      split; [discriminate |].
      intros _. eexists; split; [reflexivity | right; reflexivity].
  - assert (~ (newStatus = "approved" \/ newStatus = "rejected")) as Hns.
    { intros Hns. apply valid_newStatus_spec in Hns. congruence. }
    split; [reflexivity |].
    split; [intros; tauto |].
    split; [intros; tauto |].
    split; [discriminate |].
    intros _. eexists; split; [reflexivity | left; reflexivity].
Qed.

Lemma UpdateSaleStatus_transitions_witness :
  exists cur, stored demo_w2 !! demo_id = Some cur /\ Status cur = "approved" /\
    run demo_env (UpdateSaleStatus demo_svc demo_id "rejected") demo_w2 =
    Some (None, Some ErrInvalidTransition, demo_w2).
Proof.
  eexists. split; [vm_compute; reflexivity |]. split; [reflexivity |].
  eapply (UpdateSaleStatus_transitions demo_env demo_svc demo_w2 demo_id "rejected").
  - vm_compute. reflexivity.
  - right. reflexivity.
  - discriminate.
Defined.

(** ** Creation *)

(** C4: for every user and every [amount <= 0], [CreateSale] fails with
    "amount must be greater than zero" and the world after the call, heap
    and repository, is the world before it. *)
Theorem CreateSale_invalid_amount (env : Env) (s : Service) (userID : string)
    (amount : float) (w : World) :
  PrimFloat.leb amount 0 = true ->
  run env (CreateSale s userID amount) w =
  Some (None, Some (Errorf "amount must be greater than zero"), w).
Proof. intros Hle. rewrite CreateSale_run, Hle. reflexivity. Qed.

Lemma CreateSale_invalid_amount_witness :
  PrimFloat.leb (-5)%float 0 = true /\
  run demo_env (CreateSale demo_svc "u1" (-5)%float) demo_w1 =
  Some (None, Some (Errorf "amount must be greater than zero"), demo_w1).
Proof.
  split; [reflexivity |].
  apply (CreateSale_invalid_amount demo_env demo_svc "u1" (-5)%float demo_w1).
  reflexivity.
Defined.

Lemma pick_onto (st : string) : st ∈ statuses -> exists r, 0 <= r < 3 /\ pick r = st.
Proof.
  unfold statuses. rewrite !elem_of_cons, elem_of_nil.
  intros [-> | [-> | [-> | []]]]; [exists 0 | exists 1 | exists 2];
    (split; [lia | reflexivity]).
Qed.

Lemma created_fresh (env : Env) (s : Service) (userID : string) (amount : float) (w : World) :
  reachable env s w -> NoDup (uuids env (2 + calls w)) ->
  m w !! ID (new_sale env userID amount w) = None.
Proof.
  intros Hreach Hnd. apply wf_reachable in Hreach as Hwf.
  destruct (m w !! ID (new_sale env userID amount w)) as [p |] eqn:Hm; [| reflexivity].
  exfalso. destruct (Hwf _ _ Hm) as (sale & _ & [_ _ _ _ (i & Hi & Heq) _]).
  cbn [new_sale ID] in Heq. symmetry in Heq.
  apply (uuids_inj env (2 + calls w)) in Heq; [lia | exact Hnd | lia | lia].
Qed.

(** C6: for an existing user (the user API answers 200) and [amount > 0],
    [CreateSale] returns a sale whose id is the string of the UUID drawn in
    this call, hence not empty (and, after operations of the service with
    identifiers that never repeat, bound to no record before), with the
    [userID] and [amount] of the call, a status among the three that the
    random draw picks (each of the three for some draw), version 1; this
    record is the one stored under its id. *)
Theorem CreateSale_success (env : Env) (s : Service) (userID : string)
    (amount : float) (w : World) :
  user_api_answer env s userID w = HttpResp 200 ->
  PrimFloat.ltb 0 amount = true ->
  exists p sale w',
    run env (CreateSale s userID amount) w = Some (Some p, None, w') /\
    heap w' !! p = Some sale /\
    ID sale = UUID_String (uuid_New env (1 + calls w)) /\
    ID sale <> "" /\
    (reachable env s w -> NoDup (uuids env (2 + calls w)) ->
     stored w !! ID sale = None) /\
    UserID sale = userID /\
    Amount sale = amount /\
    Status sale ∈ statuses /\
    Status sale = pick (rand_Int63 env (2 + calls w)) /\
    (forall st, st ∈ statuses -> exists r, 0 <= r < 3 /\ pick r = st) /\
    Version sale = 1 /\
    m w' !! ID sale = Some p /\
    stored w' !! ID sale = Some sale.
Proof.
  intros Hapi Hpos. apply positive_not_le_zero in Hpos.
  exists (length (heap w)), (new_sale env userID amount w),
         (created env userID amount w).
  rewrite CreateSale_run, Hpos, Hapi. cbn [created heap m].
  assert ((heap w ++ [new_sale env userID amount w])%list !! length (heap w)
          = Some (new_sale env userID amount w)) as Hnew
    by (apply list_lookup_middle; reflexivity).
  repeat split; try reflexivity.
  - exact Hnew.
  - apply UUID_String_nonempty.
  - intros Hreach Hnd. unfold stored. rewrite lookup_omap.
    rewrite (created_fresh env s userID amount w Hreach Hnd). reflexivity.
  - apply pick_valid.
  - apply pick_onto.
  - apply lookup_insert_eq.
  - apply stored_lookup. exists (length (heap w)). cbn [m heap].
    split; [apply lookup_insert_eq | exact Hnew].
Qed.

Lemma CreateSale_success_witness :
  exists p sale w',
    run demo_env (CreateSale demo_svc "u1" 150.75%float) NewLocalStorage
      = Some (Some p, None, w') /\
    ID sale = demo_id /\ UserID sale = "u1" /\ Amount sale = 150.75%float /\
    Version sale = 1 /\ stored w' !! ID sale = Some sale.
Proof.
  destruct (CreateSale_success demo_env demo_svc "u1" 150.75%float NewLocalStorage)
    as (p & sale & w' & Hrun & Hp & Hid & Hne & Hfresh & Hu & Ha & Hs & Hpick & Hall & Hv & Hm & Hst).
  - reflexivity.
  - reflexivity.
  - exists p, sale, w'. repeat split; assumption.
Defined.

(** ** The user check and [UpdateSaleStatus] *)

Lemma handle_with_http (env : Env) (h : nat -> string -> http_result)
    (X : Type) (e : Event X) (w : World) :
  is_HttpGet X e = false -> handle (with_http h env) e w = handle env e w.
Proof. destruct e; cbn; intros Hb; try reflexivity; discriminate. Qed.

Lemma run_with_http {A : Type} (env : Env) (h : nat -> string -> http_result)
    (p : Prog A) (w : World) :
  never is_HttpGet p -> run (with_http h env) p w = run env p w.
Proof.
  revert w. induction p as [a | X e k IH]; intros w Hn; [reflexivity |].
  destruct Hn as [He Hk]. cbn [run]. rewrite handle_with_http by exact He.
  destruct (handle env e w) as [[x w'] |]; [apply IH, Hk | reflexivity].
Qed.

Lemma never_assign (sale : ptr) (upd : Sale -> Sale) : never is_HttpGet (assign sale upd).
Proof. destruct sale as [p |]; cbn; repeat split; intros []. Qed.

Lemma never_deref (sale : ptr) : never is_HttpGet (deref sale).
Proof. destruct sale as [p |]; cbn; repeat split; intros []. Qed.

Lemma never_Set (sale : ptr) : never is_HttpGet (LocalStorage.Set_ sale).
Proof.
  unfold LocalStorage.Set_. apply never_bind; [apply never_deref |].
  intros cur. destruct (String.eqb (ID cur) ""); [exact I |].
  destruct sale as [p |]; cbn; repeat split; intros [].
Qed.

(** C10: the program of [UpdateSaleStatus] contains no request to the user
    API, whatever the storage, the clock and the arguments are; so its
    result and the world it leaves are the same under any two behaviours
    [h1] and [h2] of the user API, failures included. *)
Theorem UpdateSaleStatus_no_user_check (s : Service) (saleID newStatus : string) :
  never is_HttpGet (UpdateSaleStatus s saleID newStatus) /\
  forall (env : Env) (h1 h2 : nat -> string -> http_result) (w : World),
    run (with_http h1 env) (UpdateSaleStatus s saleID newStatus) w =
    run (with_http h2 env) (UpdateSaleStatus s saleID newStatus) w.
Proof.
  assert (never is_HttpGet (UpdateSaleStatus s saleID newStatus)) as Hnever.
  { unfold UpdateSaleStatus. apply never_bind.
    { cbn. split; [reflexivity |]. intros [p |]; exact I. }
    intros [sale [err |]]; [exact I |].
    destruct (negb (String.eqb newStatus "approved")
              && negb (String.eqb newStatus "rejected")); [exact I |].
    apply never_bind; [apply never_deref |]. intros cur.
    destruct (negb (String.eqb (Status cur) "pending")); [exact I |].
    apply never_bind; [apply never_assign |]. intros _.
    apply never_bind; [cbn; split; [reflexivity | intros; exact I] |]. intros now.
    apply never_bind; [apply never_assign |]. intros _.
    apply never_bind; [apply never_assign |]. intros _.
    apply never_bind; [apply never_Set |]. intros [e |]; exact I. }
  split; [exact Hnever |]. intros env h1 h2 w.
  rewrite !run_with_http by exact Hnever. reflexivity.
Qed.

(** ** Failures write nothing *)

(** C8: after operations of the service on an empty repository, whenever
    [CreateSale], [UpdateSaleStatus] or [SearchSale] returns an error, the
    heap and the map of the repository are those before the call. *)
Theorem failure_writes_nothing (env : Env) (s : Service) (op : Op)
    (w w' : World) (e : error) :
  reachable env s w ->
  exec env s op w = Some (Some e, w') ->
  heap w' = heap w /\ m w' = m w /\ stored w' = stored w.
Proof.
  intros Hreach Hex. apply wf_reachable in Hreach as Hwf.
  apply exec_effect in Hex.
  inversion Hex as [e' n | | | saleID newStatus p cur Hm Hp Hid]; subst.
  - repeat split.
  - exfalso. destruct (Hwf _ _ Hm) as (sale & Hp' & [Hid' Hne _ _ _ _]).
    congruence.
Qed.

Lemma failure_writes_nothing_witness :
  exec demo_env demo_svc (OpCreateSale "ghost" 10%float) demo_w1
    = Some (Some (Errorf "user with ID 'ghost' not found"), later 1 demo_w1) /\
  stored (later 1 demo_w1) = stored demo_w1.
Proof.
  assert (exec demo_env demo_svc (OpCreateSale "ghost" 10%float) demo_w1
          = Some (Some (Errorf "user with ID 'ghost' not found"), later 1 demo_w1))
    as Hex by (vm_compute; reflexivity).
  split; [exact Hex |].
  apply (failure_writes_nothing demo_env demo_svc _ demo_w1 _ _
           demo_w1_reachable Hex).
Defined.

(** ** The invariants of the stored records *)

(** C7: after any sequence of operations of the service on an empty
    repository, with identifiers that never repeat, every key of the
    repository is bound to a record whose id is the key and is not empty
    and whose status is one of the three; the version of a record stored
    at some point of the sequence is never larger than the version stored
    under the same id at a later point; and [Set] refuses a record with an
    empty id with [ErrEmptyID], leaving the world as it was. *)
Theorem repository_invariants (env : Env) (s : Service) (w w' : World) :
  reachable env s w ->
  rtc (step env s) w w' ->
  NoDup (uuids env (calls w')) ->
  (forall k p, m w' !! k = Some p ->
     exists sale, heap w' !! p = Some sale /\
       ID sale = k /\ ID sale <> "" /\ Status sale ∈ statuses) /\
  (forall k sale, stored w !! k = Some sale ->
     exists sale', stored w' !! k = Some sale' /\ Version sale <= Version sale') /\
  (forall p sale w0, heap w0 !! p = Some sale -> ID sale = "" ->
     run env (LocalStorage.Set_ (Some p)) w0 = Some (Some ErrEmptyID, w0)).
Proof.
  intros Hreach Hsteps Hnd. apply wf_reachable in Hreach as Hwf.
  destruct (wf_steps env s w w' Hwf Hsteps) as [Hwf' _].
  split; [| split].
  - intros k p Hk. destruct (Hwf' k p Hk) as (sale & Hp & [Hid Hne Hst _ _ _]).
    exists sale. repeat split; try assumption. congruence.
  - intros k sale Hk. exact (version_steps env s w w' k sale Hwf Hsteps Hnd Hk).
  - intros p sale w0 Hp Hid. erewrite Set_run by exact Hp.
    rewrite Hid. reflexivity.
Qed.

Lemma repository_invariants_witness :
  (forall k p, m demo_w2 !! k = Some p ->
     exists sale, heap demo_w2 !! p = Some sale /\
       ID sale = k /\ ID sale <> "" /\ Status sale ∈ statuses) /\
  (forall k sale, stored demo_w1 !! k = Some sale ->
     exists sale', stored demo_w2 !! k = Some sale' /\ Version sale <= Version sale') /\
  (forall p sale w0, heap w0 !! p = Some sale -> ID sale = "" ->
     run demo_env (LocalStorage.Set_ (Some p)) w0 = Some (Some ErrEmptyID, w0)).
Proof.
  apply (repository_invariants demo_env demo_svc demo_w1 demo_w2).
  - apply demo_w1_reachable.
  - apply rtc_once. exists (OpUpdateSaleStatus demo_id "approved"), None.
    vm_compute. reflexivity.
  - apply (bool_decide_eq_true_1 (NoDup (uuids demo_env (calls demo_w2)))).
    vm_compute. reflexivity.
Defined.

(** ** Versions and timestamps *)

(** C3, counterexample: a sale created and approved within one reading of
    the clock: the update succeeds and [UpdatedAt] is what it was, not
    later. *)
Lemma updatedAt_not_later :
  reachable stuck_env demo_svc stuck_w1 /\
  exists cur p w' sale',
    stored stuck_w1 !! demo_id = Some cur /\
    run stuck_env (UpdateSaleStatus demo_svc demo_id "approved") stuck_w1
      = Some (Some p, None, w') /\
    heap w' !! p = Some sale' /\
    UpdatedAt cur = 1000 /\ UpdatedAt sale' = 1000 /\
    ~ (UpdatedAt cur < UpdatedAt sale').
Proof.
  split.
  { apply rtc_once. exists (OpCreateSale "u1" 150.75%float), None.
    vm_compute. reflexivity. }
  do 4 eexists.
  split; [vm_compute; reflexivity |].
  split; [vm_compute; reflexivity |].
  split; [vm_compute; reflexivity |].
  split; [reflexivity |]. split; [reflexivity |]. cbn. lia.
Qed.

(** C3, amended: a sale returned by a successful [CreateSale] has version
    1; a successful [UpdateSaleStatus] adds exactly 1 to the version and
    sets [UpdatedAt] to the reading of the clock taken during the update.
    With a clock that never goes back, that reading is not earlier than the
    value before; it is later exactly when the clock has advanced past
    that value. *)
Theorem version_and_updatedAt (env : Env) (s : Service) (w : World) :
  reachable env s w ->
  (forall userID amount p w',
     run env (CreateSale s userID amount) w = Some (Some p, None, w') ->
     exists sale, heap w' !! p = Some sale /\ Version sale = 1) /\
  (forall saleID newStatus cur p w',
     stored w !! saleID = Some cur ->
     run env (UpdateSaleStatus s saleID newStatus) w = Some (Some p, None, w') ->
     exists sale',
       heap w' !! p = Some sale' /\
       stored w' !! saleID = Some sale' /\
       Version sale' = Version cur + 1 /\
       UpdatedAt sale' = time_Now env (calls w) /\
       ((forall i j, (i <= j)%nat -> time_Now env i <= time_Now env j) ->
        UpdatedAt cur <= UpdatedAt sale') /\
       (UpdatedAt cur < UpdatedAt sale' <-> UpdatedAt cur < time_Now env (calls w))).
Proof.
  intros Hreach. apply wf_reachable in Hreach as Hwf. split.
  - intros userID amount p w'. rewrite CreateSale_run.
    destruct (PrimFloat.leb amount 0); [discriminate |].
    destruct (user_api_answer env s userID w) as [msg | code]; [discriminate |].
    destruct (code =? StatusOK);
      [| destruct (code =? StatusNotFound); discriminate].
    intros [= <- <-]. exists (new_sale env userID amount w).
    split; [apply list_lookup_middle; reflexivity | reflexivity].
  - intros saleID newStatus cur p w' Hcur.
    apply stored_lookup in Hcur as (q & Hm & Hq).
    destruct (committed_map env w saleID q cur Hwf Hm Hq) as [Hid Hins].
    destruct (Hwf _ _ Hm) as (sale & Hq' & Hok).
    assert (sale = cur) as -> by congruence.
    rewrite UpdateSaleStatus_run, Hm, Hq. cbn zeta.
    destruct (valid_newStatus newStatus); [| discriminate].
    destruct (String.eqb_spec (Status cur) "pending") as [Hs | Hs]; [| discriminate].
    destruct (String.eqb (ID cur) ""); [discriminate |].
    intros [= <- <-]. cbn [heap m calls].
    assert (<[q := updated newStatus (time_Now env (calls w)) cur]> (heap w) !! q
            = Some (updated newStatus (time_Now env (calls w)) cur)) as Hnew
      by (apply list_lookup_insert_eq; eapply lookup_lt_Some, Hq).
    eexists. split; [exact Hnew |].
    split; [apply stored_lookup; exists q; cbn [m heap]; rewrite Hins; auto |].
    cbn [updated incr_Version set_UpdatedAt set_Status Version UpdatedAt].
    destruct Hok as [_ _ _ Hver _ (i & Hi & Hup)].
    split.
    { apply wrap_int_small. unfold min_int, max_int.
      destruct Hver as [-> | [-> _]]; lia. }
    split; [reflexivity |]. split; [| reflexivity].
    intros Hmono. rewrite Hup. apply Hmono. lia.
Qed.

Lemma version_and_updatedAt_witness :
  exists sale',
    heap demo_w2 !! 0%nat = Some sale' /\
    stored demo_w2 !! demo_id = Some sale' /\
    Version sale' = 1 + 1 /\
    UpdatedAt sale' = time_Now demo_env (calls demo_w1).
Proof.
  destruct (version_and_updatedAt demo_env demo_svc demo_w1 demo_w1_reachable)
    as [_ Hupd].
  destruct (Hupd demo_id "approved"
              (mkSale demo_id "u1" 150.75%float "pending" 1003 1004 1) 0%nat demo_w2)
    as (sale' & Hp & Hst & Hv & Ht & _).
  - vm_compute. reflexivity.
  - vm_compute. reflexivity.
  - exists sale'. repeat split; assumption.
Defined.

(** ** Retrieved records are the stored records *)

Lemma run_until_bind {A B : Type} (stop : forall X, Event X -> bool) (env : Env)
    (p : Prog A) (f : A -> Prog B) (w : World) :
  run_until stop env (bind p f) w =
  match run_until stop env p w with
  | Some w1 => Some w1
  | None =>
      match run env p w with
      | Some (a, w') => run_until stop env (f a) w'
      | None => None
      end
  end.
Proof.
  revert w. induction p as [a | X e k IH]; intros w; cbn [bind run_until run];
    [reflexivity |].
  destruct (stop X e); [reflexivity |].
  destruct (handle env e w) as [[x w'] |]; [apply IH | reflexivity].
Qed.

Lemma run_until_assign (env : Env) (p : addr) (upd : Sale -> Sale) (w : World) :
  run_until is_MapSet env (assign (Some p) upd) w = None.
Proof.
  cbn. destruct (heap w !! p) as [sale |] eqn:Hp; [| reflexivity].
  cbn. rewrite Hp. reflexivity.
Qed.

Lemma run_until_Read (env : Env) (id : string) (w : World) :
  run_until is_MapSet env (LocalStorage.Read id) w = None.
Proof. cbn. destruct (m w !! id); reflexivity. Qed.

(** [UpdateSaleStatus] on a pending sale, stopped just before its [Set]
    writes the map: the three assignments are in the heap already. *)
Lemma UpdateSaleStatus_until_Set (env : Env) (s : Service) (saleID newStatus : string)
    (p : addr) (cur : Sale) (w : World) :
  m w !! saleID = Some p -> heap w !! p = Some cur ->
  Status cur = "pending" -> valid_newStatus newStatus = true -> ID cur <> "" ->
  run_until is_MapSet env (UpdateSaleStatus s saleID newStatus) w =
  Some (torn env newStatus p cur w).
Proof.
  intros Hm Hp Hs Hv Hid. unfold UpdateSaleStatus.
  rewrite run_until_bind, run_until_Read, Read_run, Hm.
  unfold valid_newStatus in Hv.
  destruct (negb (String.eqb newStatus "approved")
            && negb (String.eqb newStatus "rejected")); [discriminate |].
  rewrite run_until_bind. cbn [deref trigger run_until run is_MapSet handle].
  rewrite Hp. cbn [run_until]. rewrite Hs. cbn [String.eqb Ascii.eqb Bool.eqb negb].
  pose proof (lookup_lt_Some _ _ _ Hp) as Hlt.
  rewrite run_until_bind, run_until_assign. erewrite assign_run by exact Hp.
  rewrite run_until_bind. cbn [trigger run_until run is_MapSet handle calls heap m].
  rewrite run_until_bind, run_until_assign.
  erewrite assign_run by (cbn [heap]; apply list_lookup_insert_eq; exact Hlt).
  cbn [heap m calls]. rewrite list_insert_insert_eq.
  rewrite run_until_bind, run_until_assign.
  erewrite assign_run by (cbn [heap]; apply list_lookup_insert_eq; exact Hlt).
  cbn [heap m calls]. rewrite list_insert_insert_eq.
  rewrite run_until_bind. unfold LocalStorage.Set_ at 1.
  rewrite run_until_bind. cbn [deref trigger run_until run is_MapSet handle heap].
  rewrite list_lookup_insert_eq by exact Hlt.
  cbn [run_until incr_Version set_UpdatedAt set_Status ID].
  apply String.eqb_neq in Hid. rewrite Hid. reflexivity.
Qed.

(** C9, counterexample: on the repository with the one pending sale, the
    status "approved" is in the repository before [Set] is reached. *)
Lemma no_working_copy :
  reachable demo_env demo_svc demo_w1 /\
  Status <$> stored demo_w1 !! demo_id = Some "pending" /\
  ~ working_copy demo_env demo_svc demo_id "approved" demo_w1.
Proof.
  split; [apply demo_w1_reachable |]. split; [vm_compute; reflexivity |].
  intros Hcopy.
  specialize (Hcopy (torn demo_env "approved" 0%nat
                       (mkSale demo_id "u1" 150.75%float "pending" 1003 1004 1) demo_w1)).
  assert (Status <$> stored demo_w1 !! demo_id = Some "approved") as Habs.
  { rewrite <- Hcopy; vm_compute; reflexivity. }
  vm_compute in Habs. discriminate.
Qed.

(** C9, amended: the record [Read] returns is the stored record itself, not
    a copy: on a pending sale, the assignments of [UpdateSaleStatus] are
    in the repository before its [Set] is reached (a reader then finds the
    new status, timestamp and version), and the [Set] that follows leaves
    the world as it finds it. *)
Theorem retrieved_record_is_live (env : Env) (s : Service) (w : World)
    (saleID newStatus : string) (cur : Sale) :
  reachable env s w ->
  stored w !! saleID = Some cur ->
  Status cur = "pending" ->
  newStatus = "approved" \/ newStatus = "rejected" ->
  exists p w1,
    m w !! saleID = Some p /\
    run env (LocalStorage.Read saleID) w = Some (Some p, None, w) /\
    run_until is_MapSet env (UpdateSaleStatus s saleID newStatus) w = Some w1 /\
    m w1 = m w /\
    stored w1 !! saleID = Some (updated newStatus (time_Now env (calls w)) cur) /\
    run env (UpdateSaleStatus s saleID newStatus) w = Some (Some p, None, w1).
Proof.
  intros Hreach Hcur Hs Hns. apply wf_reachable in Hreach as Hwf.
  apply valid_newStatus_spec in Hns as Hv.
  apply stored_lookup in Hcur as (p & Hm & Hp).
  destruct (committed_map env w saleID p cur Hwf Hm Hp) as [Hid Hins].
  destruct (Hwf _ _ Hm) as (sale & Hp' & [_ Hne _ _ _ _]).
  assert (ID cur <> "") as Hne' by congruence.
  exists p, (torn env newStatus p cur w).
  split; [exact Hm |].
  split; [rewrite Read_run, Hm; reflexivity |].
  split; [apply UpdateSaleStatus_until_Set; assumption |].
  split; [reflexivity |].
  split.
  { apply stored_lookup. exists p. cbn [torn m heap]. split; [exact Hm |].
    apply list_lookup_insert_eq. eapply lookup_lt_Some, Hp. }
  rewrite UpdateSaleStatus_run, Hm, Hv, Hp, Hs. cbn zeta.
  apply String.eqb_neq in Hne'. rewrite Hne', Hins. reflexivity.
Qed.

Lemma retrieved_record_is_live_witness :
  exists p w1,
    m demo_w1 !! demo_id = Some p /\
    run_until is_MapSet demo_env (UpdateSaleStatus demo_svc demo_id "approved") demo_w1
      = Some w1 /\
    Status <$> stored w1 !! demo_id = Some "approved" /\
    run demo_env (UpdateSaleStatus demo_svc demo_id "approved") demo_w1
      = Some (Some p, None, w1).
Proof.
  destruct (retrieved_record_is_live demo_env demo_svc demo_w1 demo_id "approved"
              (mkSale demo_id "u1" 150.75%float "pending" 1003 1004 1))
    as (p & w1 & Hm & _ & Huntil & _ & Hst & Hrun).
  - apply demo_w1_reachable.
  - vm_compute. reflexivity.
  - reflexivity.
  - left. reflexivity.
  - exists p, w1. repeat split; try assumption. rewrite Hst. reflexivity.
Defined.

(** ** Search and aggregation *)

Lemma scan_filter (userID status : string) (h : list Sale) (ps : list addr)
    (results : list ptr) (meta : SalesMetadata) :
  (forall p, p ∈ ps -> is_Some (h !! p)) ->
  scan userID status h ps results meta =
  Some ((results ++ (Some <$> List.filter (selected userID status h) ps))%list,
        aggregate_all h (List.filter (selected userID status h) ps) meta).
Proof.
  revert results meta. induction ps as [| p rest IH]; intros results meta Hps.
  { cbn. rewrite app_nil_r. reflexivity. }
  destruct (Hps p) as [cur Hp]; [left |].
  assert (selected userID status h p = matches userID status cur) as Hsel
    by (unfold selected; rewrite Hp; reflexivity).
  cbn [scan List.filter]. rewrite Hp, Hsel.
  destruct (matches userID status cur).
  - rewrite IH by (intros q Hq; apply Hps; right; exact Hq).
    cbn [fmap list_fmap aggregate_all fold_left]. rewrite Hp, <- app_assoc.
    reflexivity.
  - apply IH. intros q Hq. apply Hps. right. exact Hq.
Qed.

Lemma aggregate_all_spec (h : list Sale) (ps : list addr) (meta : SalesMetadata) :
  (forall p, p ∈ ps -> exists cur, h !! p = Some cur /\ Status cur ∈ statuses) ->
  Quantity (aggregate_all h ps meta) = Quantity meta + Z.of_nat (length ps) /\
  Approved (aggregate_all h ps meta) + Rejected (aggregate_all h ps meta)
    + Pending (aggregate_all h ps meta)
  = Approved meta + Rejected meta + Pending meta + Z.of_nat (length ps) /\
  TotalAmount (aggregate_all h ps meta)
  = sum_amounts h (Some <$> ps) (TotalAmount meta).
Proof.
  revert meta. induction ps as [| p rest IH]; intros meta Hps.
  { cbn. repeat split; lia. }
  destruct (Hps p) as (cur & Hp & Hst); [left |].
  cbn [aggregate_all fold_left]. rewrite Hp. fold (aggregate_all h rest (aggregate meta cur)).
  destruct (IH (aggregate meta cur)) as (HQ & HC & HT);
    [intros q Hq; apply Hps; right; exact Hq |].
  rewrite HQ, HC, HT. cbn [aggregate Quantity Approved Rejected Pending TotalAmount].
  cbn [fmap list_fmap sum_amounts fold_left length].
  assert (amount_of h (Some p) = Amount cur) as ->
    by (unfold amount_of; cbn; rewrite Hp; reflexivity).
  split; [lia |]. split; [| reflexivity].
  unfold statuses in Hst. rewrite !elem_of_cons, elem_of_nil in Hst.
  destruct Hst as [-> | [-> | [-> | []]]]; cbn; lia.
Qed.

Lemma matches_spec (userID status : string) (cur : Sale) :
  matches userID status cur = true <->
  UserID cur = userID /\ (status = "" \/ Status cur = status).
Proof.
  unfold matches. rewrite andb_true_iff, orb_true_iff, !String.eqb_eq.
  reflexivity.
Qed.

Lemma ranged_elem (env : Env) (w : World) (p : addr) :
  order_ok env -> p ∈ ranged env w <-> exists k, m w !! k = Some p.
Proof.
  intros Hord. unfold ranged. rewrite list_elem_of_fmap. split.
  - intros ([k q] & -> & Hin). rewrite (Hord _ _) in Hin.
    apply elem_of_map_to_list in Hin. exists k. exact Hin.
  - intros (k & Hk). exists (k, p). split; [reflexivity |].
    rewrite (Hord _ _). apply elem_of_map_to_list. exact Hk.
Qed.

Lemma valid_filter_spec (status : string) :
  valid_filter status = true <-> status = "" \/ status ∈ statuses.
Proof.
  unfold valid_filter.
  destruct (String.eqb_spec status "") as [He | He]; cbn.
  { split; [intros _; left; exact He | reflexivity]. }
  rewrite negb_involutive, bool_decide_eq_true. split; [intros H; right; exact H |].
  intros [H | H]; [contradiction | exact H].
Qed.

Lemma selected_spec (userID status : string) (h : list Sale) (p : addr) :
  selected userID status h p = true <->
  exists cur, h !! p = Some cur /\ UserID cur = userID /\
    (status = "" \/ Status cur = status).
Proof.
  unfold selected. destruct (h !! p) as [cur |].
  - rewrite matches_spec. split; [intros H; exists cur; split; [reflexivity | exact H] |].
    intros (cur' & [= <-] & H). exact H.
  - split; [discriminate | intros (cur' & [=] & _)].
Qed.

(** C5: a successful [SearchSale] returns an aggregation whose quantity is
    the number of results, whose three counters add up to the quantity and
    whose total is the sum of the amounts of the results, the results being
    the stored records of the user that pass the filter; with an existing
    user and a valid filter the search succeeds, and when no stored record
    matches, it returns no result, quantity 0, counters 0 and total 0. *)
Theorem SearchSale_aggregation (env : Env) (s : Service) (w : World)
    (userID status : string) :
  reachable env s w ->
  order_ok env ->
  (forall results meta w',
     run env (SearchSale s userID status) w = Some (results, meta, None, w') ->
     Quantity meta = Z.of_nat (length results) /\
     Approved meta + Rejected meta + Pending meta = Quantity meta /\
     TotalAmount meta = sum_amounts (heap w) results 0%float /\
     (forall sale, sale ∈ results <->
        exists k p cur, sale = Some p /\ m w !! k = Some p /\
          heap w !! p = Some cur /\ UserID cur = userID /\
          (status = "" \/ Status cur = status)) /\
     heap w' = heap w /\ m w' = m w) /\
  (user_api_answer env s userID w = HttpResp 200 ->
   status = "" \/ status ∈ statuses ->
   exists results meta,
     run env (SearchSale s userID status) w = Some (results, meta, None, later 2 w) /\
     ((forall k cur, stored w !! k = Some cur ->
         ~ (UserID cur = userID /\ (status = "" \/ Status cur = status))) ->
      results = [] /\ meta = emptyMeta)).
Proof.
  intros Hreach Hord. apply wf_reachable in Hreach as Hwf.
  set (ps := List.filter (selected userID status (heap w)) (ranged env w)).
  assert (forall p, p ∈ ranged env w ->
            exists cur, heap w !! p = Some cur /\ Status cur ∈ statuses) as Hvalid.
  { intros p Hp. apply (ranged_elem env w p Hord) in Hp as (k & Hk).
    destruct (Hwf k p Hk) as (cur & Hcur & [_ _ Hst _ _ _]). eauto. }
  assert (scan userID status (heap w) (ranged env w) [] emptyMeta
          = Some (Some <$> ps, aggregate_all (heap w) ps emptyMeta)) as Hscan.
  { rewrite scan_filter; [reflexivity |].
    intros p Hp. destruct (Hvalid p Hp) as (cur & Hcur & _). eauto. }
  assert (forall p, p ∈ ps <->
            exists k cur, m w !! k = Some p /\ heap w !! p = Some cur /\
              UserID cur = userID /\ (status = "" \/ Status cur = status)) as Hps.
  { intros p. unfold ps. rewrite list_elem_of_In, filter_In, <- list_elem_of_In.
    rewrite (ranged_elem env w p Hord), selected_spec. split.
    - intros [(k & Hk) (cur & Hcur & Hu & Hf)]. eauto 6.
    - intros (k & cur & Hk & Hcur & Hu & Hf). eauto 6. }
  split.
  - intros results meta w'. rewrite SearchSale_run.
    destruct (valid_filter status); [| discriminate].
    destruct (user_api_answer env s userID w) as [msg | code]; [discriminate |].
    destruct (code =? StatusOK);
      [| destruct (code =? StatusNotFound); discriminate].
    rewrite Hscan. intros [= <- <- <-].
    destruct (aggregate_all_spec (heap w) ps emptyMeta) as (HQ & HC & HT).
    { intros p Hp. apply Hvalid. unfold ps in Hp.
      apply list_elem_of_In, filter_In in Hp as [Hp _].
      apply list_elem_of_In. exact Hp. }
    rewrite length_fmap. cbn [emptyMeta Quantity Approved Rejected Pending TotalAmount] in *.
    split; [lia |]. split; [lia |]. split; [exact HT |].
    split; [| split; reflexivity].
    intros sale. rewrite list_elem_of_fmap. split.
    + intros (p & -> & Hp). apply Hps in Hp as (k & cur & Hk & Hcur & Hu & Hf).
      exists k, p, cur. auto.
    + intros (k & p & cur & -> & Hk & Hcur & Hu & Hf). exists p.
      split; [reflexivity |]. apply Hps. eauto 6.
  - intros Hapi Hfilter. apply valid_filter_spec in Hfilter.
    rewrite SearchSale_run, Hfilter, Hapi, Hscan. cbn [Z.eqb StatusOK Pos.eqb].
    do 2 eexists. split; [reflexivity |].
    intros Hnone. assert (ps = []) as ->; [| split; reflexivity].
    destruct ps as [| p rest] eqn:Heq; [reflexivity |]. exfalso.
    destruct (proj1 (Hps p)) as (k & cur & Hk & Hcur & Hu & Hf); [left |].
    apply (Hnone k cur); [apply stored_lookup; eauto | auto].
Qed.

Lemma test_world_reachable : reachable test_env demo_svc test_world.
Proof.
  unfold reachable.
  eapply rtc_l; [exists (OpCreateSale "user1" 100%float), None; vm_compute; reflexivity |].
  eapply rtc_l; [exists (OpCreateSale "user1" 200%float), None; vm_compute; reflexivity |].
  eapply rtc_l; [exists (OpCreateSale "user2" 50%float), None; vm_compute; reflexivity |].
  eapply rtc_l; [exists (OpCreateSale "user1" 150%float), None; vm_compute; reflexivity |].
  apply rtc_refl.
Qed.

Lemma SearchSale_aggregation_witness :
  exists results meta w',
    run test_env (SearchSale demo_svc "user1" "") test_world
      = Some (results, meta, None, w') /\
    meta = mkMeta 3 2 0 1 450%float /\
    Quantity meta = Z.of_nat (length results) /\
    Approved meta + Rejected meta + Pending meta = Quantity meta /\
    TotalAmount meta = sum_amounts (heap test_world) results 0%float.
Proof.
  destruct (SearchSale_aggregation test_env demo_svc test_world "user1" "")
    as [Hagg _].
  - apply test_world_reachable.
  - intros n l. reflexivity.
  - do 3 eexists. split; [vm_compute; reflexivity |]. split; [reflexivity |].
    edestruct Hagg as (HQ & HC & HT & _); [vm_compute; reflexivity |].
    repeat split; assumption.
Defined.

(** * Further properties of the storage *)

(** X1: [Set] of a record with a non-empty id succeeds, and the [Read] of
    that id that follows returns the pointer that was given to [Set], with
    no error. *)
Theorem Set_then_Read (env : Env) (p : addr) (sale : Sale) (w : World) :
  heap w !! p = Some sale ->
  ID sale <> "" ->
  run env (err ← LocalStorage.Set_ (Some p);
           r ← LocalStorage.Read (ID sale);
           Ret (err, r)) w
  = Some (None, (Some p, None),
          mkWorld (heap w) (<[ID sale := p]> (m w)) (calls w)).
Proof.
  intros Hp Hid. apply String.eqb_neq in Hid.
  rewrite run_bind. erewrite Set_run by exact Hp. rewrite Hid.
  rewrite run_bind, Read_run. cbn [m]. rewrite lookup_insert_eq. reflexivity.
Qed.

Lemma Set_then_Read_witness :
  run demo_env (err ← LocalStorage.Set_ (Some 0%nat);
                r ← LocalStorage.Read demo_id;
                Ret (err, r)) (mkWorld (heap demo_w1) ∅ 0%nat)
  = Some (None, (Some 0%nat, None),
          mkWorld (heap demo_w1) (<[demo_id := 0%nat]> ∅) 0%nat).
Proof.
  apply (Set_then_Read demo_env 0%nat
           (mkSale demo_id "u1" 150.75%float "pending" 1003 1004 1)
           (mkWorld (heap demo_w1) ∅ 0%nat)).
  - reflexivity.
  - discriminate.
Defined.

(** X2: a successful [Set] touches one key only: the heap is as before and
    [Read] of any other id answers as before; a second [Set] of the same
    record changes nothing; and [Set] of another record with the same id
    replaces the first, [Read] then returns the second. *)
Theorem Set_replaces_one_key (env : Env) (p q : addr) (sale other : Sale) (w : World) :
  heap w !! p = Some sale ->
  ID sale <> "" ->
  exists w',
    run env (LocalStorage.Set_ (Some p)) w = Some (None, w') /\
    heap w' = heap w /\
    (forall id, id <> ID sale ->
       fst <$> run env (LocalStorage.Read id) w'
       = fst <$> run env (LocalStorage.Read id) w) /\
    run env (LocalStorage.Set_ (Some p)) w' = Some (None, w') /\
    (heap w !! q = Some other -> ID other = ID sale ->
     exists w'', run env (LocalStorage.Set_ (Some q)) w' = Some (None, w'') /\
       run env (LocalStorage.Read (ID sale)) w'' = Some (Some q, None, w'')).
Proof.
  intros Hp Hid. apply String.eqb_neq in Hid as Hnb.
  eexists. split; [erewrite Set_run by exact Hp; rewrite Hnb; reflexivity |].
  split; [reflexivity |]. split; [| split].
  - intros id Hne. rewrite !Read_run. cbn [m fmap option_fmap option_map fst].
    rewrite lookup_insert_ne by congruence. reflexivity.
  - erewrite Set_run by exact Hp. rewrite Hnb. cbn [heap m calls].
    rewrite insert_insert_eq. reflexivity.
  - intros Hq Heq. eexists. split.
    + erewrite Set_run by exact Hq. rewrite Heq, Hnb. reflexivity.
    + rewrite Read_run. cbn [m]. rewrite lookup_insert_eq. reflexivity.
Qed.

Lemma Set_replaces_one_key_witness :
  exists w',
    run demo_env (LocalStorage.Set_ (Some 0%nat)) demo_w1 = Some (None, w') /\
    heap w' = heap demo_w1 /\
    run demo_env (LocalStorage.Set_ (Some 0%nat)) w' = Some (None, w').
Proof.
  destruct (Set_replaces_one_key demo_env 0%nat 0%nat
              (mkSale demo_id "u1" 150.75%float "pending" 1003 1004 1)
              (mkSale demo_id "u1" 150.75%float "pending" 1003 1004 1) demo_w1)
    as (w' & Hset & Hheap & _ & Hidem & _).
  - reflexivity.
  - discriminate.
  - exists w'. repeat split; assumption.
Defined.

(** X3: [Read] never changes the world; it returns the pointer bound to the
    id exactly when the id is a key of the map, and [(nil, ErrNotFound)]
    exactly when it is not, as for every id on a new storage. *)
Theorem Read_found_or_missing (env : Env) (id : string) (w : World) :
  exists r, run env (LocalStorage.Read id) w = Some (r, w) /\
    (forall p, m w !! id = Some p <-> r = (Some p, None)) /\
    (m w !! id = None <-> r = (None, Some ErrNotFound)) /\
    run env (LocalStorage.Read id) NewLocalStorage
    = Some (None, Some ErrNotFound, NewLocalStorage).
Proof.
  rewrite !Read_run. eexists. split; [reflexivity |].
  cbn [NewLocalStorage m]. rewrite lookup_empty.
  destruct (m w !! id) as [q |].
  - repeat split; try discriminate; try reflexivity; congruence.
  - repeat split; try discriminate; try reflexivity.
Qed.

(** X4: [GetAll] never fails and leaves the heap and the map as they are;
    when the iteration visits every entry once it returns as many pointers
    as the map has keys, namely the pointers bound in the map, and none on
    an empty map. *)
Theorem GetAll_all_pointers (env : Env) (w : World) :
  order_ok env ->
  exists sales,
    run env LocalStorage.GetAll w = Some (sales, None, later 1 w) /\
    length sales = size (m w) /\
    (forall sale, sale ∈ sales <-> exists k p, sale = Some p /\ m w !! k = Some p) /\
    (m w = ∅ -> sales = []).
Proof.
  intros Hord. eexists. split; [reflexivity |].
  assert (length (Some <$> (map_order env (calls w) (map_to_list (m w))).*2)
          = size (m w)) as Hlen.
  { rewrite !length_fmap, (Hord _ _). apply length_map_to_list. }
  split; [exact Hlen |]. split.
  - intros sale. rewrite list_elem_of_fmap. split.
    + intros (p & -> & Hin). apply list_elem_of_fmap in Hin as ([k q] & -> & Hin).
      rewrite (Hord _ _) in Hin. apply elem_of_map_to_list in Hin. eauto.
    + intros (k & p & -> & Hk). exists p. split; [reflexivity |].
      apply list_elem_of_fmap. exists (k, p). split; [reflexivity |].
      rewrite (Hord _ _). apply elem_of_map_to_list. exact Hk.
  - intros Hempty. apply nil_length_inv. etrans; [exact Hlen |].
    rewrite Hempty. apply map_size_empty.
Qed.

Lemma GetAll_all_pointers_witness :
  exists sales,
    run test_env LocalStorage.GetAll test_world = Some (sales, None, later 1 test_world) /\
    length sales = size (m test_world).
Proof.
  destruct (GetAll_all_pointers test_env test_world) as (sales & Hrun & Hlen & _).
  - intros n l. reflexivity.
  - exists sales. split; assumption.
Defined.

(** X5: [Set] keeps the pointer, not a copy of the record: an assignment
    made through the pointer after [Set] is what a later [Read] of the id
    finds, under the id the record had when it was set. *)
Theorem Set_keeps_the_pointer (env : Env) (p : addr) (sale : Sale)
    (upd : Sale -> Sale) (w : World) :
  heap w !! p = Some sale ->
  ID sale <> "" ->
  run env (LocalStorage.Set_ (Some p);;
           assign (Some p) upd;;
           '(found, _) ← LocalStorage.Read (ID sale);
           deref found) w
  = Some (upd sale,
          mkWorld (<[p := upd sale]> (heap w)) (<[ID sale := p]> (m w)) (calls w)).
Proof.
  intros Hp Hid. apply String.eqb_neq in Hid.
  rewrite run_bind. erewrite Set_run by exact Hp. rewrite Hid.
  rewrite run_bind. erewrite assign_run by exact Hp. cbn [heap m calls].
  rewrite run_bind, Read_run. cbn [m]. rewrite lookup_insert_eq.
  cbn [deref trigger run handle heap].
  rewrite list_lookup_insert_eq by (eapply lookup_lt_Some, Hp). reflexivity.
Qed.

Lemma Set_keeps_the_pointer_witness :
  run demo_env (LocalStorage.Set_ (Some 0%nat);;
                assign (Some 0%nat) (set_Status "approved");;
                '(found, _) ← LocalStorage.Read demo_id;
                deref found) demo_w1
  = Some (mkSale demo_id "u1" 150.75%float "approved" 1003 1004 1,
          mkWorld [mkSale demo_id "u1" 150.75%float "approved" 1003 1004 1]
                  (<[demo_id := 0%nat]> (m demo_w1)) 5%nat).
Proof.
  apply (Set_keeps_the_pointer demo_env 0%nat
           (mkSale demo_id "u1" 150.75%float "pending" 1003 1004 1)
           (set_Status "approved") demo_w1).
  - reflexivity.
  - discriminate.
Defined.

(** * Further properties of the service *)

Lemma exec_inv (env : Env) (s : Service) (op : Op) (e : option error) (w w' : World) :
  exec env s op w = Some (e, w') ->
  (exists n, w' = later n w) \/
  (exists userID amount,
     op = OpCreateSale userID amount /\ e = None /\
     PrimFloat.leb amount 0 = false /\
     user_api_answer env s userID w = HttpResp 200 /\
     w' = created env userID amount w) \/
  (exists saleID newStatus p cur,
     op = OpUpdateSaleStatus saleID newStatus /\
     m w !! saleID = Some p /\ heap w !! p = Some cur /\
     Status cur = "pending" /\ valid_newStatus newStatus = true /\
     ((ID cur <> "" /\ e = None /\ w' = committed env newStatus p cur w) \/
      (ID cur = "" /\ w' = torn env newStatus p cur w))).
Proof.
  destruct op as [userID amount | saleID newStatus | userID status]; cbn [exec].
  - rewrite CreateSale_run. cbn [fmap option_fmap option_map prod_map fst snd].
    destruct (PrimFloat.leb amount 0) eqn:Hle.
    { intros [= <- <-]. left. exists 0%nat. symmetry. apply later_0. }
    destruct (user_api_answer env s userID w) as [msg | code] eqn:Hapi.
    { intros [= <- <-]. left. eauto. }
    destruct (Z.eqb_spec code StatusOK) as [-> | Hcode].
    { intros [= <- <-]. right. left. exists userID, amount. auto. }
    destruct (code =? StatusNotFound); intros [= <- <-]; left; eauto.
  - rewrite UpdateSaleStatus_run.
    destruct (m w !! saleID) as [p |] eqn:Hm; cbn [fmap option_fmap option_map prod_map fst snd].
    2: { intros [= <- <-]. left. exists 0%nat. symmetry. apply later_0. }
    destruct (valid_newStatus newStatus) eqn:Hv.
    2: { intros [= <- <-]. left. exists 0%nat. symmetry. apply later_0. }
    destruct (heap w !! p) as [cur |] eqn:Hp; [| discriminate].
    destruct (String.eqb_spec (Status cur) "pending") as [Hs | Hs].
    2: { intros [= <- <-]. left. exists 0%nat. symmetry. apply later_0. }
    cbn zeta. destruct (String.eqb_spec (ID cur) "") as [Hid | Hid];
      intros [= <- <-]; right; right; exists saleID, newStatus, p, cur;
      repeat split; auto.
  - rewrite SearchSale_run. destruct (valid_filter status).
    2: { intros [= <- <-]. left. exists 0%nat. symmetry. apply later_0. }
    destruct (user_api_answer env s userID w) as [msg | code].
    { intros [= <- <-]. left. eauto. }
    destruct (code =? StatusOK).
    { destruct (scan _ _ _ _ _ _) as [[results meta] |]; [| discriminate].
      intros [= <- <-]. left. eauto. }
    destruct (code =? StatusNotFound); intros [= <- <-]; left; eauto.
Qed.

(** Where a record of the world after one operation comes from. *)
Lemma step_backward (env : Env) (s : Service) (w w' : World) (k : string) (sale' : Sale) :
  wf env w -> step env s w w' -> stored w' !! k = Some sale' ->
  (exists userID amount,
     PrimFloat.leb amount 0 = false /\ sale' = new_sale env userID amount w /\
     calls w' = (5 + calls w)%nat) \/
  (exists sale, stored w !! k = Some sale /\
     (sale' = sale \/
      (Status sale = "pending" /\ calls w' = S (calls w) /\ exists newStatus,
         valid_newStatus newStatus = true /\
         sale' = updated newStatus (time_Now env (calls w)) sale))).
Proof.
  intros Hwf (op & e & Hex) Hk'. apply stored_lookup in Hk' as (q & Hmq & Hq).
  apply exec_inv in Hex
    as [(n & ->) | [(userID & amount & _ & _ & Hle & _ & ->)
                   | (saleID & ns & p & cur & _ & Hm & Hp & Hs & Hv & Hcase)]].
  - right. exists sale'. split; [apply stored_lookup; eauto | left; reflexivity].
  - cbn [created m heap] in Hmq, Hq.
    destruct (decide (ID (new_sale env userID amount w) = k)) as [<- | Hne].
    + rewrite lookup_insert_eq in Hmq. injection Hmq as <-.
      rewrite list_lookup_middle in Hq by reflexivity. injection Hq as <-.
      left. exists userID, amount. auto.
    + rewrite lookup_insert_ne in Hmq by exact Hne.
      destruct (Hwf k q Hmq) as (sale & Hq0 & _).
      rewrite (lookup_app_l_Some _ _ _ _ Hq0) in Hq. injection Hq as <-.
      right. exists sale. split; [apply stored_lookup; eauto | left; reflexivity].
  - destruct (committed_map env w saleID p cur Hwf Hm Hp) as [Hid Hins].
    destruct (Hwf _ _ Hm) as (cur0 & Hp0 & [_ Hne _ _ _ _]).
    destruct Hcase as [(_ & _ & ->) | (Hempty & _)]; [| congruence].
    cbn [committed m heap] in Hmq, Hq. rewrite Hins in Hmq. right.
    destruct (decide (q = p)) as [-> | Hqp].
    + assert (k = saleID) as -> by (eapply wf_key_addr; eassumption).
      rewrite list_lookup_insert_eq in Hq by (eapply lookup_lt_Some, Hp).
      injection Hq as <-. exists cur. split; [apply stored_lookup; eauto |].
      right. split; [exact Hs |]. split; [reflexivity |]. eauto.
    + rewrite list_lookup_insert_ne in Hq by congruence.
      exists sale'. split; [apply stored_lookup; eauto | left; reflexivity].
Qed.

(** Where a record of the world before one operation goes, when the
    identifiers do not repeat. *)
Lemma step_forward (env : Env) (s : Service) (w w' : World) (k : string) (sale : Sale) :
  wf env w -> step env s w w' -> NoDup (uuids env (calls w')) ->
  stored w !! k = Some sale ->
  exists sale', stored w' !! k = Some sale' /\ written_once sale sale'.
Proof.
  intros Hwf (op & e & Hex) Hnd Hk. apply stored_lookup in Hk as (q & Hmq & Hq).
  destruct (Hwf _ _ Hmq) as (sale0 & Hq0 & Hok).
  assert (sale0 = sale) as -> by congruence.
  apply exec_inv in Hex
    as [(n & ->) | [(userID & amount & _ & _ & Hle & _ & ->)
                   | (saleID & ns & p & cur & _ & Hm & Hp & Hs & Hv & Hcase)]].
  - exists sale. split; [apply stored_lookup; eauto | left; reflexivity].
  - exists sale. split; [| left; reflexivity]. apply stored_lookup. exists q.
    cbn [created m heap calls] in *. split; [| apply lookup_app_l_Some, Hq].
    rewrite lookup_insert_ne; [exact Hmq |]. cbn [new_sale ID]. intros Heq.
    destruct Hok as [_ _ _ _ (i & Hi & Hki) _]. rewrite Hki in Heq.
    apply (uuids_inj env (5 + calls w)) in Heq; [lia | exact Hnd | lia | lia].
  - destruct (committed_map env w saleID p cur Hwf Hm Hp) as [Hid Hins].
    destruct (Hwf _ _ Hm) as (cur0 & Hp0 & [_ Hne _ _ _ _]).
    destruct Hcase as [(_ & _ & ->) | (Hempty & _)]; [| congruence].
    destruct (decide (q = p)) as [-> | Hqp].
    + assert (sale = cur) as -> by congruence.
      eexists. split.
      * apply stored_lookup. exists p. cbn [committed m heap]. rewrite Hins.
        split; [exact Hmq |]. apply list_lookup_insert_eq. eapply lookup_lt_Some, Hp.
      * right. split; [exact Hs |]. eauto.
    + exists sale. split; [| left; reflexivity]. apply stored_lookup. exists q.
      cbn [committed m heap]. rewrite Hins. split; [exact Hmq |].
      rewrite list_lookup_insert_ne by congruence. exact Hq.
Qed.

Lemma updated_not_pending (newStatus : string) (now : Time) (sale : Sale) :
  valid_newStatus newStatus = true ->
  Status (updated newStatus now sale) <> "pending".
Proof.
  intros Hv. apply valid_newStatus_spec in Hv. cbn.
  destruct Hv as [-> | ->]; discriminate.
Qed.

Lemma written_once_trans (a b c : Sale) :
  written_once a b -> written_once b c -> written_once a c.
Proof.
  intros [-> | (Hs & ns & now & Hv & ->)] Hbc; [exact Hbc |].
  destruct Hbc as [-> | (Hs' & _)].
  - right. split; [exact Hs |]. eauto.
  - exfalso. exact (updated_not_pending ns now a Hv Hs').
Qed.

Lemma steps_forward (env : Env) (s : Service) (w w' : World) (k : string) (sale : Sale) :
  wf env w -> rtc (step env s) w w' -> NoDup (uuids env (calls w')) ->
  stored w !! k = Some sale ->
  exists sale', stored w' !! k = Some sale' /\ written_once sale sale'.
Proof.
  intros Hwf Hrtc. revert sale.
  induction Hrtc as [w | w w1 w2 Hstep Hrest IH]; intros sale Hnd Hk.
  { exists sale. split; [exact Hk | left; reflexivity]. }
  destruct (wf_step _ _ _ _ Hwf Hstep) as [Hwf1 Hle].
  destruct (wf_steps _ _ _ _ Hwf1 Hrest) as [_ Hle2].
  destruct (step_forward env s w w1 k sale Hwf Hstep) as (sale1 & Hk1 & H1);
    [eapply uuids_prefix; [exact Hle2 | exact Hnd] | exact Hk |].
  destruct (IH Hwf1 sale1 Hnd Hk1) as (sale2 & Hk2 & H2).
  exists sale2. split; [exact Hk2 | eapply written_once_trans; eassumption].
Qed.

(** [amount <= 0] is false exactly for the positive amounts and for NaN. *)
Lemma not_le_zero (a : float) :
  PrimFloat.leb a 0 = false <->
  PrimFloat.ltb 0 a = true \/ PrimFloat.is_nan a = true.
Proof.
  unfold PrimFloat.is_nan. rewrite ltb_spec, leb_spec, FloatAxioms.eqb_spec.
  unfold SFltb, SFleb, SFeqb. change (Prim2SF 0) with (S754_zero false).
  destruct (Prim2SF a) as [sg | sg | | sg mant ex]; simpl.
  - split; [discriminate | intros [H | H]; discriminate].
  - destruct sg; simpl; split; auto; intros [H | H]; discriminate.
  - split; auto.
  - destruct sg; simpl; [| split; auto].
    split; [discriminate |]. intros [H | H]; [discriminate |].
    rewrite Z.compare_refl, Pos.compare_cont_refl in H. discriminate.
Qed.

(** X6: [UpdateSaleStatus] of an id that is not in the repository returns
    [ErrNotFound] whatever [newStatus] is, valid or not, and leaves the
    world as it was: the lookup comes before the check of [newStatus]. *)
Theorem UpdateSaleStatus_unknown_id (env : Env) (s : Service)
    (saleID newStatus : string) (w : World) :
  m w !! saleID = None ->
  run env (UpdateSaleStatus s saleID newStatus) w = Some (None, Some ErrNotFound, w).
Proof. intros Hm. rewrite UpdateSaleStatus_run, Hm. reflexivity. Qed.

Lemma UpdateSaleStatus_unknown_id_witness :
  run demo_env (UpdateSaleStatus demo_svc "no-such-sale" "not-a-status") demo_w1
  = Some (None, Some ErrNotFound, demo_w1).
Proof.
  apply (UpdateSaleStatus_unknown_id demo_env demo_svc "no-such-sale" "not-a-status" demo_w1).
  vm_compute. reflexivity.
Defined.

(** X7: a successful [UpdateSaleStatus] writes the status, the timestamp
    and the version of its record and nothing else: the record keeps its
    id, user, amount and creation time, the map keeps its bindings, and
    every other stored record is what it was. *)
Theorem UpdateSaleStatus_frame (env : Env) (s : Service) (w w' : World)
    (saleID newStatus : string) (cur : Sale) (p : ptr) :
  reachable env s w ->
  stored w !! saleID = Some cur ->
  run env (UpdateSaleStatus s saleID newStatus) w = Some (p, None, w') ->
  exists sale',
    stored w' !! saleID = Some sale' /\
    ID sale' = ID cur /\ UserID sale' = UserID cur /\
    Amount sale' = Amount cur /\ CreatedAt sale' = CreatedAt cur /\
    Status sale' = newStatus /\
    m w' = m w /\ length (heap w') = length (heap w) /\
    (forall k, k <> saleID -> stored w' !! k = stored w !! k).
Proof.
  intros Hreach Hcur. apply wf_reachable in Hreach as Hwf.
  apply stored_lookup in Hcur as (q & Hm & Hq).
  destruct (committed_map env w saleID q cur Hwf Hm Hq) as [Hid Hins].
  rewrite UpdateSaleStatus_run, Hm, Hq. cbn zeta.
  destruct (valid_newStatus newStatus); [| discriminate].
  destruct (String.eqb (Status cur) "pending"); [| discriminate].
  destruct (String.eqb (ID cur) ""); [discriminate |].
  intros [= <- <-]. cbn [m heap]. rewrite Hins.
  exists (updated newStatus (time_Now env (calls w)) cur).
  split.
  { apply stored_lookup. exists q. cbn [m heap]. split; [exact Hm |].
    apply list_lookup_insert_eq. eapply lookup_lt_Some, Hq. }
  do 5 (split; [reflexivity |]). split; [reflexivity |].
  split; [apply length_insert |].
  intros k Hk. unfold stored. cbn [m heap]. apply option_eq. intros sale.
  rewrite !lookup_omap. destruct (m w !! k) as [r |] eqn:Hr; [| reflexivity].
  cbn. rewrite list_lookup_insert_ne; [reflexivity |].
  intros <-. apply Hk. eapply wf_key_addr; eassumption.
Qed.

Lemma UpdateSaleStatus_frame_witness :
  exists sale',
    stored demo_w2 !! demo_id = Some sale' /\
    UserID sale' = "u1" /\ Amount sale' = 150.75%float /\
    Status sale' = "approved" /\ m demo_w2 = m demo_w1.
Proof.
  destruct (UpdateSaleStatus_frame demo_env demo_svc demo_w1 demo_w2 demo_id "approved"
              (mkSale demo_id "u1" 150.75%float "pending" 1003 1004 1) (Some 0%nat))
    as (sale' & Hst & _ & Hu & Ha & _ & Hs & Hm & _).
  - apply demo_w1_reachable.
  - vm_compute. reflexivity.
  - vm_compute. reflexivity.
  - exists sale'. repeat split; assumption.
Defined.

(** X8: [CreateSale] always returns, with a sale or with an error and never
    with both or neither; it succeeds exactly when [amount <= 0] is false
    and the user API answers 200; for the answer 404 the error is "user
    with ID '<userID>' not found" after one call and no write; and the
    error is never the one of a failed [Set]. *)
Theorem CreateSale_outcomes (env : Env) (s : Service) (userID : string)
    (amount : float) (w : World) :
  exists sale err w',
    run env (CreateSale s userID amount) w = Some (sale, err, w') /\
    (sale = None <-> err <> None) /\
    (err = None <->
     PrimFloat.leb amount 0 = false /\ user_api_answer env s userID w = HttpResp 200) /\
    (PrimFloat.leb amount 0 = false ->
     user_api_answer env s userID w = HttpResp 404 ->
     err = Some (Errorf ("user with ID '" ++ userID ++ "' not found")) /\
     w' = later 1 w) /\
    (forall e, err <> Some (Wrapf "failed to save sale: " e)).
Proof.
  rewrite CreateSale_run. destruct (PrimFloat.leb amount 0).
  { do 3 eexists. split; [reflexivity |].
    repeat split; try discriminate; try congruence; intros []; discriminate. }
  destruct (user_api_answer env s userID w) as [msg | code].
  { do 3 eexists. split; [reflexivity |].
    repeat split; try discriminate; try congruence; intros []; discriminate. }
  unfold StatusOK, StatusNotFound.
  destruct (Z.eqb_spec code 200) as [-> | H200].
  { do 3 eexists. split; [reflexivity |].
    repeat split; try discriminate; try congruence. }
  destruct (Z.eqb_spec code 404) as [-> | H404].
  { do 3 eexists. split; [reflexivity |].
    repeat split; try discriminate; try congruence; intros []; discriminate. }
  do 3 eexists. split; [reflexivity |].
  repeat split; try discriminate; try congruence; intros []; congruence.
Qed.

(** X9: every sale in a repository the service has built has an amount for
    which [amount <= 0] is false, that is, a positive amount or NaN: the
    check of [CreateSale] lets NaN through, and a sale with amount NaN is
    created for an existing user. *)
Theorem stored_amounts (env : Env) (s : Service) (w : World) (k : string) (sale : Sale) :
  reachable env s w ->
  stored w !! k = Some sale ->
  PrimFloat.leb (Amount sale) 0 = false /\
  (PrimFloat.ltb 0 (Amount sale) = true \/ PrimFloat.is_nan (Amount sale) = true) /\
  (forall userID w0, user_api_answer env s userID w0 = HttpResp 200 ->
     exists p w', run env (CreateSale s userID PrimFloat.nan) w0 = Some (Some p, None, w')).
Proof.
  intros Hreach Hk.
  assert (PrimFloat.leb (Amount sale) 0 = false) as Hle.
  { revert k sale Hk.
    apply (rtc_ind_r (R := step env s)
             (fun w0 => forall k sale, stored w0 !! k = Some sale ->
                        PrimFloat.leb (Amount sale) 0 = false)
             NewLocalStorage); [| | exact Hreach].
    { intros k sale Hk. unfold stored in Hk. cbn in Hk.
      rewrite omap_empty, lookup_empty in Hk. discriminate. }
    intros w1 w2 Hrtc Hstep IH k sale Hk.
    destruct (step_backward env s w1 w2 k sale (wf_reachable env s w1 Hrtc) Hstep Hk)
      as [(userID & amount & Hle & -> & _) | (sale0 & Hk0 & [-> | (_ & _ & ns & _ & ->)])].
    - exact Hle.
    - eapply IH, Hk0.
    - cbn. eapply IH, Hk0. }
  split; [exact Hle |]. split; [apply not_le_zero, Hle |].
  intros userID w0 Hapi. do 2 eexists. rewrite CreateSale_run, Hapi. reflexivity.
Qed.

Lemma stored_amounts_witness :
  PrimFloat.leb 150.75%float 0 = false /\
  (PrimFloat.ltb 0 150.75%float = true \/ PrimFloat.is_nan 150.75%float = true).
Proof.
  destruct (stored_amounts demo_env demo_svc demo_w2 demo_id
              (mkSale demo_id "u1" 150.75%float "approved" 1003 1005 2))
    as (Hle & Hpos & _).
  - apply demo_w2_reachable.
  - vm_compute. reflexivity.
  - split; assumption.
Defined.

(** X10: when the identifiers do not repeat, a successful [CreateSale]
    adds exactly one key to the repository and one object to the heap, and
    every record stored before is still stored, unchanged. *)
Theorem CreateSale_adds_one (env : Env) (s : Service) (userID : string)
    (amount : float) (w w' : World) (p : ptr) :
  reachable env s w ->
  NoDup (uuids env (2 + calls w)) ->
  run env (CreateSale s userID amount) w = Some (p, None, w') ->
  size (m w') = S (size (m w)) /\
  length (heap w') = S (length (heap w)) /\
  (forall k sale, stored w !! k = Some sale -> stored w' !! k = Some sale).
Proof.
  intros Hreach Hnd. apply wf_reachable in Hreach as Hwf.
  pose proof (created_fresh env s userID amount w Hreach Hnd) as Hfresh.
  rewrite CreateSale_run.
  destruct (PrimFloat.leb amount 0); [discriminate |].
  destruct (user_api_answer env s userID w) as [msg | code]; [discriminate |].
  destruct (code =? StatusOK);
    [| destruct (code =? StatusNotFound); discriminate].
  intros [= <- <-]. cbn [created m heap].
  split; [apply map_size_insert_None, Hfresh |].
  split; [rewrite length_app; cbn; lia |].
  intros k sale Hk. apply stored_lookup in Hk as (q & Hm & Hq).
  apply stored_lookup. exists q. cbn [created m heap].
  split; [| apply lookup_app_l_Some, Hq].
  rewrite lookup_insert_ne; [exact Hm |]. intros Heq. congruence.
Qed.

Lemma CreateSale_adds_one_witness :
  size (m demo_w1) = S (size (m NewLocalStorage)) /\
  length (heap demo_w1) = S (length (heap NewLocalStorage)).
Proof.
  destruct (CreateSale_adds_one demo_env demo_svc "u1" 150.75%float
              NewLocalStorage demo_w1 (Some 0%nat)) as (Hsize & Hlen & _).
  - apply rtc_refl.
  - apply (bool_decide_eq_true_1 (NoDup (uuids demo_env (2 + calls NewLocalStorage)))).
    vm_compute. reflexivity.
  - vm_compute. reflexivity.
  - split; assumption.
Defined.




(** X12: when the identifiers do not repeat, a stored record is written at
    most once after its creation: at any later point of the sequence the
    record under its id has the same id, user, amount and creation time,
    and it is either the same record or the record was pending and is now
    not, with version one more. *)
Theorem record_written_at_most_once (env : Env) (s : Service) (w w' : World)
    (k : string) (sale : Sale) :
  reachable env s w ->
  rtc (step env s) w w' ->
  NoDup (uuids env (calls w')) ->
  stored w !! k = Some sale ->
  exists sale',
    stored w' !! k = Some sale' /\
    ID sale' = ID sale /\ UserID sale' = UserID sale /\
    Amount sale' = Amount sale /\ CreatedAt sale' = CreatedAt sale /\
    (sale' = sale \/
     (Status sale = "pending" /\ Status sale' <> "pending" /\
      Version sale' = Version sale + 1)).
Proof.
  intros Hreach Hsteps Hnd Hk. apply wf_reachable in Hreach as Hwf.
  destruct (steps_forward env s w w' k sale Hwf Hsteps Hnd Hk)
    as (sale' & Hk' & Honce).
  exists sale'. split; [exact Hk' |].
  destruct Honce as [-> | (Hs & ns & now & Hv & ->)].
  { repeat split; try reflexivity. left. reflexivity. }
  repeat split; try reflexivity. right. split; [exact Hs |].
  split; [apply updated_not_pending, Hv |].
  apply stored_lookup in Hk as (p & Hm & Hp).
  destruct (Hwf _ _ Hm) as (sale0 & Hp0 & [_ _ _ Hver _ _]).
  assert (sale0 = sale) as -> by congruence.
  cbn [updated incr_Version set_UpdatedAt set_Status Version].
  apply wrap_int_small. unfold min_int, max_int.
  destruct Hver as [-> | [-> _]]; lia.
Qed.

Lemma record_written_at_most_once_witness :
  exists sale',
    stored demo_w2 !! demo_id = Some sale' /\
    UserID sale' = "u1" /\ Amount sale' = 150.75%float /\ CreatedAt sale' = 1003.
Proof.
  destruct (record_written_at_most_once demo_env demo_svc demo_w1 demo_w2 demo_id
              (mkSale demo_id "u1" 150.75%float "pending" 1003 1004 1))
    as (sale' & Hk & _ & Hu & Ha & Hc & _).
  - apply demo_w1_reachable.
  - apply rtc_once. exists (OpUpdateSaleStatus demo_id "approved"), None.
    vm_compute. reflexivity.
  - apply (bool_decide_eq_true_1 (NoDup (uuids demo_env (calls demo_w2)))).
    vm_compute. reflexivity.
  - vm_compute. reflexivity.
  - exists sale'. repeat split; assumption.
Defined.

(** X13: when the identifiers do not repeat, a record that is approved or
    rejected is never written again: at every later point of the sequence
    the repository holds the very same record under its id, whatever
    operations were attempted. *)
Theorem terminal_record_frozen (env : Env) (s : Service) (w w' : World)
    (k : string) (sale : Sale) :
  reachable env s w ->
  rtc (step env s) w w' ->
  NoDup (uuids env (calls w')) ->
  stored w !! k = Some sale ->
  Status sale <> "pending" ->
  stored w' !! k = Some sale.
Proof.
  intros Hreach Hsteps Hnd Hk Hs. apply wf_reachable in Hreach as Hwf.
  destruct (steps_forward env s w w' k sale Hwf Hsteps Hnd Hk)
    as (sale' & Hk' & [-> | (Hpend & _)]); [exact Hk' | contradiction].
Qed.

Lemma terminal_record_frozen_witness :
  stored (world_after (exec demo_env demo_svc (OpUpdateSaleStatus demo_id "rejected") demo_w2))
    !! demo_id
  = Some (mkSale demo_id "u1" 150.75%float "approved" 1003 1005 2).
Proof.
  apply (terminal_record_frozen demo_env demo_svc demo_w2).
  - apply demo_w2_reachable.
  - apply rtc_once. exists (OpUpdateSaleStatus demo_id "rejected"), (Some ErrInvalidTransition).
    vm_compute. reflexivity.
  - apply (bool_decide_eq_true_1 (NoDup (uuids demo_env 6))).
    vm_compute. reflexivity.
  - vm_compute. reflexivity.
  - discriminate.
Defined.

(** X14: in a repository the service has built every record has version 1
    or 2: version 1 as long as it is pending, and version 2 only once it is
    approved or rejected; [Version++] never wraps around. *)
Theorem stored_versions (env : Env) (s : Service) (w : World) (k : string) (sale : Sale) :
  reachable env s w ->
  stored w !! k = Some sale ->
  (Version sale = 1 \/ Version sale = 2) /\
  (Status sale = "pending" -> Version sale = 1) /\
  (Version sale = 2 -> Status sale = "approved" \/ Status sale = "rejected") /\
  wrap_int (Version sale + 1) = Version sale + 1.
Proof.
  intros Hreach Hk. apply wf_reachable in Hreach as Hwf.
  apply stored_lookup in Hk as (p & Hm & Hp).
  destruct (Hwf _ _ Hm) as (sale0 & Hp0 & [_ _ Hst Hver _ _]).
  assert (sale0 = sale) as -> by congruence.
  split; [tauto |]. split; [intros Hs; destruct Hver as [? | [_ ?]]; congruence |].
  split.
  - intros H2. destruct Hver as [H1 | [_ Hnp]]; [congruence |].
    unfold statuses in Hst. rewrite !elem_of_cons, elem_of_nil in Hst.
    destruct Hst as [? | [? | [? | []]]]; [contradiction | left | right]; assumption.
  - apply wrap_int_small. unfold min_int, max_int.
    destruct Hver as [-> | [-> _]]; lia.
Qed.

Lemma stored_versions_witness :
  (Version (mkSale demo_id "u1" 150.75%float "approved" 1003 1005 2) = 1 \/
   Version (mkSale demo_id "u1" 150.75%float "approved" 1003 1005 2) = 2).
Proof.
  destruct (stored_versions demo_env demo_svc demo_w2 demo_id
              (mkSale demo_id "u1" 150.75%float "approved" 1003 1005 2))
    as (Hver & _).
  - apply demo_w2_reachable.
  - vm_compute. reflexivity.
  - exact Hver.
Defined.

Lemma pick_pending (r : Z) : String.eqb (pick r) "pending" = (r mod 3 =? 0).
Proof.
  unfold pick. destruct (r mod 3 =? 0); [reflexivity |].
  destruct (r mod 3 =? 1); reflexivity.
Qed.

(** X15: a caller that creates a sale and then updates the sale it got back
    with a valid [newStatus] succeeds exactly when the random draw of
    [CreateSale] was 0 modulo 3, the draw that makes the sale pending; for
    the other draws the first update already fails with
    [ErrInvalidTransition] and the sale stays as it was created. *)
Theorem create_then_update (env : Env) (s : Service) (userID newStatus : string)
    (amount : float) (w : World) :
  PrimFloat.leb amount 0 = false ->
  user_api_answer env s userID w = HttpResp 200 ->
  newStatus = "approved" \/ newStatus = "rejected" ->
  run env ('(sale, _) ← CreateSale s userID amount;
           cur ← deref sale;
           UpdateSaleStatus s (ID cur) newStatus) w
  = Some (if rand_Int63 env (2 + calls w) mod 3 =? 0
          then (Some (length (heap w)), None,
                committed env newStatus (length (heap w))
                  (new_sale env userID amount w) (created env userID amount w))
          else (None, Some ErrInvalidTransition, created env userID amount w)).
Proof.
  intros Hle Hapi Hns. apply valid_newStatus_spec in Hns.
  rewrite run_bind, CreateSale_run, Hle, Hapi. cbn [Z.eqb StatusOK Pos.eqb].
  rewrite run_bind. cbn [deref trigger run handle created heap].
  rewrite list_lookup_middle by reflexivity.
  rewrite UpdateSaleStatus_run. cbn [created m heap].
  rewrite lookup_insert_eq, Hns, list_lookup_middle by reflexivity.
  cbn zeta. cbn [new_sale Status ID].
  rewrite pick_pending, UUID_String_eqb.
  destruct (rand_Int63 env (2 + calls w) mod 3 =? 0); reflexivity.
Qed.

Lemma create_then_update_witness :
  run demo_env ('(sale, _) ← CreateSale demo_svc "u1" 150.75%float;
                cur ← deref sale;
                UpdateSaleStatus demo_svc (ID cur) "approved") NewLocalStorage
  = Some (Some 0%nat, None, demo_w2).
Proof.
  rewrite (create_then_update demo_env demo_svc "u1" "approved" 150.75%float NewLocalStorage).
  - vm_compute. reflexivity.
  - reflexivity.
  - reflexivity.
  - left. reflexivity.
Defined.

Lemma stamped_mono (env : Env) (n n' : nat) (sale : Sale) :
  (n <= n')%nat -> stamped env n sale -> stamped env n' sale.
Proof. intros Hle (i & j & Hij & Hc & Hu). exists i, j. split; [lia | auto]. Qed.

(** X16: for every record of a repository the service has built,
    [CreatedAt] and [UpdatedAt] are two readings of the clock, the first
    taken no later than the second (at creation they are two successive
    readings, not one); so with a clock that never goes back [CreatedAt] is
    not after [UpdatedAt]. *)
Theorem stored_timestamps (env : Env) (s : Service) (w : World) (k : string) (sale : Sale) :
  reachable env s w ->
  stored w !! k = Some sale ->
  stamped env (calls w) sale /\
  (clock_monotone env -> CreatedAt sale <= UpdatedAt sale).
Proof.
  intros Hreach Hk.
  assert (stamped env (calls w) sale) as Hst.
  { revert k sale Hk.
    apply (rtc_ind_r (R := step env s)
             (fun w0 => forall k sale, stored w0 !! k = Some sale ->
                        stamped env (calls w0) sale)
             NewLocalStorage); [| | exact Hreach].
    { intros k sale Hk. unfold stored in Hk. cbn in Hk.
      rewrite omap_empty, lookup_empty in Hk. discriminate. }
    intros w1 w2 Hrtc Hstep IH k sale Hk.
    pose proof (wf_reachable env s w1 Hrtc) as Hwf1.
    destruct (wf_step env s w1 w2 Hwf1 Hstep) as [_ Hcalls].
    destruct (step_backward env s w1 w2 k sale Hwf1 Hstep Hk)
      as [(userID & amount & _ & -> & Hc)
         | (sale0 & Hk0 & [-> | (_ & Hc & ns & _ & ->)])].
    - exists (3 + calls w1)%nat, (4 + calls w1)%nat.
      split; [lia |]. split; reflexivity.
    - eapply stamped_mono; [exact Hcalls | eapply IH, Hk0].
    - destruct (IH k sale0 Hk0) as (i & j & Hij & Hcr & _).
      exists i, (calls w1). split; [lia |]. split; [exact Hcr | reflexivity]. }
  split; [exact Hst |]. intros Hmono.
  destruct Hst as (i & j & Hij & -> & ->). apply Hmono. lia.
Qed.

Lemma stored_timestamps_witness :
  CreatedAt (mkSale demo_id "u1" 150.75%float "approved" 1003 1005 2)
  <= UpdatedAt (mkSale demo_id "u1" 150.75%float "approved" 1003 1005 2).
Proof.
  destruct (stored_timestamps demo_env demo_svc demo_w2 demo_id
              (mkSale demo_id "u1" 150.75%float "approved" 1003 1005 2))
    as (_ & Hle).
  - apply demo_w2_reachable.
  - vm_compute. reflexivity.
  - apply Hle. intros i j Hij. cbn. lia.
Defined.

(** * Further properties of the handler *)

Lemma handleCreateSale_run (env : Env) (s : Service) (r : api.req) (w : World) :
  run env (api.handleCreateSale s (Some r)) w =
  Some
    (if PrimFloat.leb (api.Amount r) 0
     then (api.JSON 400 (api.H_error "amount must be greater than zero"), w)
     else
       match user_api_answer env s (api.UserID r) w with
       | HttpResp 200 =>
           (api.JSON 201
              (api.sale_body (Some (new_sale env (api.UserID r) (api.Amount r) w))),
            created env (api.UserID r) (api.Amount r) w)
       | _ => (api.JSON 500 (api.H_error "failed to create sale"), later 1 w)
       end).
Proof.
  unfold api.handleCreateSale. rewrite run_bind, CreateSale_run.
  destruct (PrimFloat.leb (api.Amount r) 0); [reflexivity |].
  destruct (user_api_answer env s (api.UserID r) w) as [msg | code]; [reflexivity |].
  unfold StatusOK, StatusNotFound.
  destruct (Z.eqb_spec code 200) as [-> | H200].
  { cbn [run bind trigger handle created heap].
    rewrite list_lookup_middle by reflexivity. reflexivity. }
  destruct (Z.eqb_spec code 404) as [-> | H404]; [reflexivity |].
  destruct code as [| [c | c |] | c]; try reflexivity;
    repeat (destruct c as [c | c |]; try reflexivity); congruence.
Qed.

(** X17: [handleCreateSale] always answers, with 201, 400 or 500; it
    answers 201 exactly when the body was bound, [amount <= 0] is false and
    the user API answered 200, and then the body of the answer is the
    created sale, version 1, which is stored under its id; with any other
    answer the heap and the map of the repository are as before. *)
Theorem handleCreateSale_answers (env : Env) (s : Service) (bound : option api.req)
    (w : World) :
  exists resp w',
    run env (api.handleCreateSale s bound) w = Some (resp, w') /\
    (api.code resp = 201 \/ api.code resp = 400 \/ api.code resp = 500) /\
    (api.code resp = 201 <->
     exists r, bound = Some r /\ PrimFloat.leb (api.Amount r) 0 = false /\
       user_api_answer env s (api.UserID r) w = HttpResp 200) /\
    (api.code resp = 201 ->
     exists sale, api.obj resp = api.sale_body (Some sale) /\
       stored w' !! ID sale = Some sale /\ Version sale = 1) /\
    (api.code resp <> 201 -> heap w' = heap w /\ m w' = m w).
Proof.
  destruct bound as [r |].
  2: { do 2 eexists. split; [reflexivity |]. cbn.
       repeat split; try discriminate; auto. intros (r & [=] & _). }
  rewrite handleCreateSale_run.
  destruct (PrimFloat.leb (api.Amount r) 0) eqn:Hle.
  { do 2 eexists. split; [reflexivity |]. cbn.
    repeat split; try discriminate; auto. intros (r' & [= <-] & Hle' & _). congruence. }
  assert (forall msg, api.code (api.JSON 500 (api.H_error msg)) = 201 -> False) as H500
    by (cbn; discriminate).
  destruct (user_api_answer env s (api.UserID r) w) as [msg | code] eqn:Hapi.
  { do 2 eexists. split; [reflexivity |]. cbn.
    repeat split; try discriminate; auto. intros (r' & [= <-] & _ & Habs). congruence. }
  destruct (Z.eq_dec code 200) as [-> | Hcode].
  - do 2 eexists. split; [reflexivity |]. cbn [api.code api.obj].
    split; [auto |]. split; [split; [intros _; exists r; auto | reflexivity] |].
    split; [| intros Habs; contradiction].
    intros _. eexists. split; [reflexivity |]. split; [| reflexivity].
    apply stored_lookup. exists (length (heap w)). cbn [created m heap].
    split; [apply lookup_insert_eq | apply list_lookup_middle; reflexivity].
  - assert (match HttpResp code with
            | HttpResp 200 =>
                (api.JSON 201
                   (api.sale_body (Some (new_sale env (api.UserID r) (api.Amount r) w))),
                 created env (api.UserID r) (api.Amount r) w)
            | _ => (api.JSON 500 (api.H_error "failed to create sale"), later 1 w)
            end = (api.JSON 500 (api.H_error "failed to create sale"), later 1 w)) as ->.
    { destruct code as [| [c | c |] | c]; try reflexivity;
        repeat (destruct c as [c | c |]; try reflexivity); congruence. }
    do 2 eexists. split; [reflexivity |]. cbn.
    repeat split; try discriminate; auto.
    intros (r' & [= <-] & _ & Habs). congruence.
Qed.

(** X18: [handleCreateSale] answers 400 in two cases only, a body that does
    not bind ("invalid request payload", nothing is called) and an amount
    with [amount <= 0] ("amount must be greater than zero"), the world
    being unchanged in both; for a user the user API does not know (404)
    it answers 500 "failed to create sale", not 400: the message of
    [CreateSale] is never the "user not found" the handler compares it
    with. *)
Theorem handleCreateSale_bad_request (env : Env) (s : Service) (bound : option api.req)
    (w : World) :
  exists resp w',
    run env (api.handleCreateSale s bound) w = Some (resp, w') /\
    (api.code resp = 400 <->
     bound = None \/ exists r, bound = Some r /\ PrimFloat.leb (api.Amount r) 0 = true) /\
    (api.code resp = 400 -> w' = w) /\
    (bound = None ->
     resp = api.JSON 400 (api.H_error "invalid request payload")) /\
    (forall r, bound = Some r -> PrimFloat.leb (api.Amount r) 0 = true ->
       resp = api.JSON 400 (api.H_error "amount must be greater than zero")) /\
    (forall r, bound = Some r -> PrimFloat.leb (api.Amount r) 0 = false ->
       user_api_answer env s (api.UserID r) w = HttpResp 404 ->
       resp = api.JSON 500 (api.H_error "failed to create sale")).
Proof.
  destruct bound as [r |].
  2: { do 2 eexists. split; [reflexivity |]. cbn.
       repeat split; try discriminate; auto. }
  rewrite handleCreateSale_run.
  destruct (PrimFloat.leb (api.Amount r) 0) eqn:Hle.
  { do 2 eexists. split; [reflexivity |]. cbn.
    repeat split; try discriminate; try congruence; eauto;
      intros r' [= <-]; congruence. }
  assert (forall (resp : api.response) (w' : World),
            api.code resp <> 400 ->
            (user_api_answer env s (api.UserID r) w = HttpResp 404 ->
             resp = api.JSON 500 (api.H_error "failed to create sale")) ->
            (api.code resp = 400 <->
             Some r = None \/
             (exists r', Some r = Some r' /\ PrimFloat.leb (api.Amount r') 0 = true)) /\
            (api.code resp = 400 -> w' = w) /\
            (Some r = None ->
             resp = api.JSON 400 (api.H_error "invalid request payload")) /\
            (forall r', Some r = Some r' -> PrimFloat.leb (api.Amount r') 0 = true ->
               resp = api.JSON 400 (api.H_error "amount must be greater than zero")) /\
            (forall r', Some r = Some r' -> PrimFloat.leb (api.Amount r') 0 = false ->
               user_api_answer env s (api.UserID r') w = HttpResp 404 ->
               resp = api.JSON 500 (api.H_error "failed to create sale"))) as Hother.
  { intros resp w' Hcode H404. split; [| split; [| split; [| split]]].
    - split; [intros Hc; contradiction |].
      intros [[=] | (r' & [= <-] & Hle')]. congruence.
    - intros Hc. contradiction.
    - discriminate.
    - intros r' [= <-] Hle'. congruence.
    - intros r' [= <-] _ Hapi. apply H404, Hapi. }
  destruct (user_api_answer env s (api.UserID r) w) as [msg | code] eqn:Hapi.
  { do 2 eexists. split; [reflexivity |].
    apply Hother; [cbn; discriminate | discriminate]. }
  destruct (Z.eq_dec code 200) as [-> | Hcode].
  { do 2 eexists. split; [reflexivity |].
    apply Hother; [cbn; discriminate | discriminate]. }
  assert (match HttpResp code with
          | HttpResp 200 =>
              (api.JSON 201
                 (api.sale_body (Some (new_sale env (api.UserID r) (api.Amount r) w))),
               created env (api.UserID r) (api.Amount r) w)
          | _ => (api.JSON 500 (api.H_error "failed to create sale"), later 1 w)
          end = (api.JSON 500 (api.H_error "failed to create sale"), later 1 w)) as ->.
  { destruct code as [| [c | c |] | c]; try reflexivity;
      repeat (destruct c as [c | c |]; try reflexivity); congruence. }
  do 2 eexists. split; [reflexivity |].
  apply Hother; [cbn; discriminate | reflexivity].
Qed.

(** * Further properties: the errors callers can test *)

(** The four sentinel errors of the package. *)
Lemma sentinel_cases (target : error) :
  target ∈ [ErrNotFound; ErrEmptyID; ErrInvalidTransition; ErrInvalidStatus] ->
  target = ErrNotFound \/ target = ErrEmptyID \/
  target = ErrInvalidTransition \/ target = ErrInvalidStatus.
Proof. rewrite !elem_of_cons, elem_of_nil. tauto. Qed.

(** X19: no error of [CreateSale] is, or wraps, one of the sentinel errors
    of the package: [errors.Is] against [ErrNotFound], [ErrEmptyID],
    [ErrInvalidTransition] and [ErrInvalidStatus] is false for each of
    them, so a caller can tell its failures apart by their messages only. *)
Theorem CreateSale_errors_are_not_sentinels (env : Env) (s : Service)
    (userID : string) (amount : float) (w w' : World) (sale : ptr) (e target : error) :
  run env (CreateSale s userID amount) w = Some (sale, Some e, w') ->
  target ∈ [ErrNotFound; ErrEmptyID; ErrInvalidTransition; ErrInvalidStatus] ->
  errors_Is e target = false.
Proof.
  intros Hrun Ht. apply sentinel_cases in Ht. rewrite CreateSale_run in Hrun.
  destruct (PrimFloat.leb amount 0).
  { injection Hrun as _ <- _. destruct Ht as [-> | [-> | [-> | ->]]]; reflexivity. }
  destruct (user_api_answer env s userID w) as [msg | code].
  { injection Hrun as _ <- _. destruct Ht as [-> | [-> | [-> | ->]]]; reflexivity. }
  destruct (code =? StatusOK); [discriminate |].
  destruct (code =? StatusNotFound); injection Hrun as _ <- _;
    destruct Ht as [-> | [-> | [-> | ->]]]; reflexivity.
Qed.

Lemma CreateSale_errors_are_not_sentinels_witness :
  errors_Is (Errorf "user with ID 'ghost' not found") ErrNotFound = false.
Proof.
  apply (CreateSale_errors_are_not_sentinels demo_env demo_svc "ghost" 10%float
           demo_w1 (later 1 demo_w1) None).
  - vm_compute. reflexivity.
  - repeat constructor.
Defined.

(** X20: on a repository the service has built [UpdateSaleStatus] never
    panics and never fails in [Set]: it returns either the updated sale
    with no error, or no sale and one of the three sentinel errors
    [ErrNotFound], [ErrInvalidStatus], [ErrInvalidTransition] themselves,
    which [errors.Is] recognises. *)
Theorem UpdateSaleStatus_results (env : Env) (s : Service)
    (saleID newStatus : string) (w : World) :
  reachable env s w ->
  exists sale err w',
    run env (UpdateSaleStatus s saleID newStatus) w = Some (sale, err, w') /\
    ((err = None /\ exists p, sale = Some p /\ m w !! saleID = Some p) \/
     (sale = None /\ w' = w /\ exists e, err = Some e /\ errors_Is e e = true /\
        (e = ErrNotFound \/ e = ErrInvalidStatus \/ e = ErrInvalidTransition))).
Proof.
  intros Hreach. apply wf_reachable in Hreach as Hwf.
  rewrite UpdateSaleStatus_run.
  destruct (m w !! saleID) as [p |] eqn:Hm.
  2: { do 3 eexists. split; [reflexivity |]. right. eauto 10. }
  destruct (valid_newStatus newStatus).
  2: { do 3 eexists. split; [reflexivity |]. right. eauto 10. }
  destruct (Hwf _ _ Hm) as (cur & Hp & [Hid Hne _ _ _ _]). rewrite Hp.
  destruct (String.eqb (Status cur) "pending").
  2: { do 3 eexists. split; [reflexivity |]. right. eauto 10. }
  cbn zeta. assert (String.eqb (ID cur) "" = false) as ->
    by (apply String.eqb_neq; congruence).
  do 3 eexists. split; [reflexivity |]. left. eauto.
Qed.

Lemma UpdateSaleStatus_results_witness :
  exists sale err w',
    run demo_env (UpdateSaleStatus demo_svc demo_id "approved") demo_w1
      = Some (sale, err, w') /\
    ((err = None /\ exists p, sale = Some p /\ m demo_w1 !! demo_id = Some p) \/
     (sale = None /\ w' = demo_w1 /\ exists e, err = Some e /\ errors_Is e e = true /\
        (e = ErrNotFound \/ e = ErrInvalidStatus \/ e = ErrInvalidTransition))).
Proof.
  apply (UpdateSaleStatus_results demo_env demo_svc demo_id "approved" demo_w1).
  apply demo_w1_reachable.
Defined.
